(** * Business Framework Analysis Platform: the home page and the page router

    A shallow embedding of [app.py]: the page router [main] and the
    home page [show_home_page] with its three data-frame computations
    (category histogram, quick search, featured frameworks), followed by
    the properties of the routing and search contract.

    Text is modelled as [string], the sequence of the bytes of its UTF-8
    encoding: on ASCII text, and only there, one byte is one character
    of the Python string. What is stated about matching and case is
    stated about ASCII text. *)

From Stdlib Require Import List String Ascii Bool Arith Lia.
From Stdlib Require Import DecimalString Sorting.Sorted Sorting.Permutation.
Import ListNotations.

Local Open Scope string_scope.
Local Open Scope list_scope.
Local Open Scope nat_scope.

(* ===================================================================== *)
(** * Text *)
(* ===================================================================== *)

Module Text.

Definition is_upper (c : ascii) : bool :=
  (65 <=? nat_of_ascii c) && (nat_of_ascii c <=? 90).

(** Case folding of an ASCII character: [A-Z] to [a-z], any other byte
    unchanged. *)
Definition lower (c : ascii) : ascii :=
  if is_upper c then ascii_of_nat (nat_of_ascii c + 32) else c.

Definition eq_ci (a b : ascii) : bool := Ascii.eqb (lower a) (lower b).

Definition chars (s : string) : list ascii := list_ascii_of_string s.

(** [q] is, up to case, a prefix of [s]. *)
Fixpoint prefix_ci (q s : list ascii) : bool :=
  match q, s with
  | [], _ => true
  | _ :: _, [] => false
  | a :: q', b :: s' => eq_ci a b && prefix_ci q' s'
  end.

(** [q] occurs in [s] at some offset, up to case. *)
Fixpoint occurs_ci (q s : list ascii) : bool :=
  prefix_ci q s ||
  match s with
  | [] => false
  | _ :: s' => occurs_ci q s'
  end.

(** Literal, case-insensitive substring containment, on ASCII text what
    [q.upper() in s.upper()] decides. *)
Definition contains_ci (q s : string) : bool := occurs_ci (chars q) (chars s).

(** A character of the ASCII range, and texts made of such characters. *)
Definition is_ascii (c : ascii) : bool := nat_of_ascii c <? 128.

Definition ascii_text (s : string) : bool := forallb is_ascii (chars s).

(** The line break of a multi-line string literal. *)
Definition newline_string : string := String (ascii_of_nat 10) EmptyString.

(** Decimal rendering of a position or a count, as [str(n)]. *)
Definition dec (n : nat) : string := NilEmpty.string_of_uint (Nat.to_uint n).

End Text.

(* ===================================================================== *)
(** * Exceptions *)
(* ===================================================================== *)

(** A raised Python exception: the name of its class, whether that class
    derives from [Exception] (as opposed to [BaseException] only, like
    [SystemExit] or [KeyboardInterrupt]), and the text [str(e)]. *)
Record exc : Type := Exc {
  exc_class : string;
  is_Exception : bool;
  exc_str : string
}.

(** The result of code that returns or raises. *)
Definition result (A : Type) : Type := (exc + A)%type.

(* ===================================================================== *)
(** * Regular expressions: the pattern engine behind [str.contains] *)
(* ===================================================================== *)

(** [Series.str.contains(pat, case=False)] keeps pandas' default
    [regex=True]: the query is compiled by [re.compile(pat,
    re.IGNORECASE)] and every cell is tested with [pattern.search]. The
    engine is an interface here; [PyRe] below gives the meaning of a
    fragment of the pattern syntax on ASCII text and leaves the rest of
    the library a parameter. *)
Record ReEngine : Type := {
  Pattern : Type;
  (** [re_compile ignorecase pat] *)
  re_compile : bool -> string -> result Pattern;
  (** [pattern.search(s) is not None] *)
  re_search : Pattern -> string -> bool
}.

(** An engine that rejects every pattern, the empty one included. *)
Definition failing_engine : ReEngine :=
  {| Pattern := unit;
     re_compile := fun _ _ => inl (Exc "re.error" true "rejected");
     re_search := fun _ _ => false |}.

Module PyRe.
Import Text.

Inductive regex : Type :=
| Empty                                  (* matches nothing *)
| Eps                                    (* the empty string *)
| Chr (c : ascii)                        (* a literal character *)
| AnyChar                                (* [.]: any character but newline *)
| CharSet (negated : bool) (members : list ascii)   (* [[abc]], [[^abc]] *)
| Cat (r1 r2 : regex)
| Alt (r1 r2 : regex)
| Star (r : regex).

Definition Plus (r : regex) : regex := Cat r (Star r).
Definition Opt (r : regex) : regex := Alt r Eps.

(** ** Parsing

    The fragment of the pattern syntax that is given a meaning:
    literal characters, [.], [|], capturing groups [( )], the
    quantifiers [*], [+], [?] and their lazy forms, and character sets
    [[...]] of plain characters with an optional leading [^]. The
    parser reports the syntax errors of [re.compile] inside this
    fragment, with the position [re.error] carries; a pattern that uses
    anything else (a character outside ASCII, a backslash anywhere,
    anchors, [{m,n}], ranges, [(?...)], possessive quantifiers) is
    reported as [OutsideFragment] and given no meaning here. *)

Inductive parse_error : Type :=
| Syntax (msg : string) (pos : nat)
| OutsideFragment.

Inductive token : Type :=
| TDot | TStar | TPlus | TQuest | TBar | TOpen | TClose
| TLBracket | TRBracket | TCaret | TMinus | TBackslash
| TDollar | TLBrace | TRBrace
| TLit (c : ascii).

Definition classify (c : ascii) : token :=
  if Ascii.eqb c "." then TDot
  else if Ascii.eqb c "*" then TStar
  else if Ascii.eqb c "+" then TPlus
  else if Ascii.eqb c "?" then TQuest
  else if Ascii.eqb c "|" then TBar
  else if Ascii.eqb c "(" then TOpen
  else if Ascii.eqb c ")" then TClose
  else if Ascii.eqb c "[" then TLBracket
  else if Ascii.eqb c "]" then TRBracket
  else if Ascii.eqb c "^" then TCaret
  else if Ascii.eqb c "-" then TMinus
  else if Ascii.eqb c "\" then TBackslash
  else if Ascii.eqb c "$" then TDollar
  else if Ascii.eqb c "{" then TLBrace
  else if Ascii.eqb c "}" then TRBrace
  else TLit c.

(** The special characters of the pattern syntax ([re.escape] guards
    them); [-] is special only inside a set. *)
Definition special_chars : list ascii :=
  list_ascii_of_string ".^$*+?{}[]\|()".

Definition is_special (c : ascii) : bool := existsb (Ascii.eqb c) special_chars.

Definition meta_free (q : string) : bool :=
  forallb (fun c => negb (is_special c)) (chars q).

(** An element of the sequence under construction, with the mark
    "already a repetition". *)
Definition item : Type := (regex * bool)%type.

(** One open group (or the top level): where its [(] stands, the
    alternatives finished so far and the current sequence, both newest
    first. *)
Record frame : Type := Frame {
  open_pos : nat;
  branches : list regex;
  items : list item
}.

Inductive prev : Type :=
| PrevNone
| PrevQuant       (* the previous character was a greedy quantifier *)
| PrevOpen.       (* the previous character was [(] *)

Inductive mode : Type :=
| Normal (p : prev)
| SetOpen (start : nat)                               (* just after [[] *)
| SetFirst (start : nat) (negated : bool)             (* before the first member *)
| SetRest (start : nat) (negated : bool) (members : list ascii).

Record pstate : Type := PState {
  outer : list frame;
  cur : frame;
  pmode : mode
}.

Definition seq_regex (rs : list regex) : regex := fold_right Cat Eps rs.

Fixpoint alt_regex (bs : list regex) : regex :=
  match bs with
  | [] => Empty
  | [b] => b
  | b :: bs' => Alt b (alt_regex bs')
  end.

Definition close_branch (f : frame) : list regex :=
  seq_regex (rev (map fst (items f))) :: branches f.

Definition close_frame (f : frame) : regex := alt_regex (rev (close_branch f)).

Definition push_item (st : pstate) (r : regex) : pstate :=
  let f := cur st in
  PState (outer st) (Frame (open_pos f) (branches f) ((r, false) :: items f))
         (Normal PrevNone).

Definition quantify (st : pstate) (pos : nat) (p : prev) (q : regex -> regex)
           (lazy_mark possessive_mark : bool) : parse_error + pstate :=
  let f := cur st in
  match items f with
  | [] =>
      match p, lazy_mark with
      | PrevOpen, true => inl OutsideFragment            (* [(?...)] *)
      | _, _ => inl (Syntax "nothing to repeat" pos)
      end
  | (r, true) :: its =>
      match p with
      | PrevQuant =>
          if lazy_mark then inr (PState (outer st) f (Normal PrevNone))
          else if possessive_mark then inl OutsideFragment
          else inl (Syntax "multiple repeat" pos)
      | _ => inl (Syntax "multiple repeat" pos)
      end
  | (r, false) :: its =>
      inr (PState (outer st)
                  (Frame (open_pos f) (branches f) ((q r, true) :: its))
                  (Normal PrevQuant))
  end.

Definition step (st : pstate) (pos : nat) (c : ascii) : parse_error + pstate :=
  match pmode st with
  | Normal p =>
      match classify c with
      | TLit _ | TRBracket | TRBrace | TMinus => inr (push_item st (Chr c))
      | TDot => inr (push_item st AnyChar)
      | TStar => quantify st pos p Star false false
      | TPlus => quantify st pos p Plus false true
      | TQuest => quantify st pos p Opt true false
      | TBar =>
          let f := cur st in
          inr (PState (outer st) (Frame (open_pos f) (close_branch f) [])
                      (Normal PrevNone))
      | TOpen =>
          inr (PState (cur st :: outer st) (Frame pos [] []) (Normal PrevOpen))
      | TClose =>
          match outer st with
          | [] => inl (Syntax "unbalanced parenthesis" pos)
          | f :: fs =>
              inr (PState fs
                          (Frame (open_pos f) (branches f)
                                 ((close_frame (cur st), false) :: items f))
                          (Normal PrevNone))
          end
      | TLBracket => inr (PState (outer st) (cur st) (SetOpen pos))
      | TCaret | TDollar | TBackslash | TLBrace => inl OutsideFragment
      end
  | SetOpen start =>
      match classify c with
      | TCaret => inr (PState (outer st) (cur st) (SetFirst start true))
      | TRBracket => inr (PState (outer st) (cur st) (SetRest start false [c]))
      | TBackslash | TMinus => inl OutsideFragment
      | _ => inr (PState (outer st) (cur st) (SetRest start false [c]))
      end
  | SetFirst start neg =>
      match classify c with
      | TBackslash | TMinus => inl OutsideFragment
      | _ => inr (PState (outer st) (cur st) (SetRest start neg [c]))
      end
  | SetRest start neg ms =>
      match classify c with
      | TRBracket =>
          inr (push_item (PState (outer st) (cur st) (Normal PrevNone))
                         (CharSet neg (rev ms)))
      | TBackslash | TMinus => inl OutsideFragment
      | _ => inr (PState (outer st) (cur st) (SetRest start neg (c :: ms)))
      end
  end.

Definition finish (st : pstate) : parse_error + regex :=
  match pmode st with
  | Normal _ =>
      match outer st with
      | [] => inr (close_frame (cur st))
      | _ :: _ => inl (Syntax "missing ), unterminated subpattern" (open_pos (cur st)))
      end
  | SetOpen start | SetFirst start _ | SetRest start _ _ =>
      inl (Syntax "unterminated character set" start)
  end.

Fixpoint parse_loop (st : pstate) (pos : nat) (input : list ascii)
  : parse_error + regex :=
  match input with
  | [] => finish st
  | c :: rest =>
      match step st pos c with
      | inl e => inl e
      | inr st' => parse_loop st' (S pos) rest
      end
  end.

(** The sequence items of a run of literal characters. *)
Definition plain_items (q : list ascii) : list item := map (fun c => (Chr c, false)) q.

Definition initial : pstate := PState [] (Frame 0 [] []) (Normal PrevNone).

(** The alphabet of the fragment: ASCII, so that a position counts
    characters, and no backslash, which the tokenizer of [re] reads one
    token ahead. *)
Definition in_alphabet (pat : string) : bool :=
  forallb (fun c => is_ascii c && negb (Ascii.eqb c "\")) (chars pat).

Definition parse (pat : string) : parse_error + regex :=
  if in_alphabet pat then parse_loop initial 0 (chars pat) else inl OutsideFragment.

(** ** Matching *)

Definition newline : ascii := ascii_of_nat 10.

Definition chr_match (ignorecase : bool) (lit subject : ascii) : bool :=
  if ignorecase then eq_ci lit subject else Ascii.eqb lit subject.

Definition set_match (ignorecase : bool) (neg : bool) (ms : list ascii)
           (subject : ascii) : bool :=
  xorb neg (existsb (fun m => chr_match ignorecase m subject) ms).

Fixpoint nullable (r : regex) : bool :=
  match r with
  | Empty | Chr _ | AnyChar | CharSet _ _ => false
  | Eps | Star _ => true
  | Cat r1 r2 => nullable r1 && nullable r2
  | Alt r1 r2 => nullable r1 || nullable r2
  end.

(** What is left of [r] to match once the character [a] is consumed. *)
Fixpoint deriv (ic : bool) (a : ascii) (r : regex) : regex :=
  match r with
  | Empty | Eps => Empty
  | Chr c => if chr_match ic c a then Eps else Empty
  | AnyChar => if Ascii.eqb a newline then Empty else Eps
  | CharSet neg ms => if set_match ic neg ms a then Eps else Empty
  | Cat r1 r2 =>
      if nullable r1
      then Alt (Cat (deriv ic a r1) r2) (deriv ic a r2)
      else Cat (deriv ic a r1) r2
  | Alt r1 r2 => Alt (deriv ic a r1) (deriv ic a r2)
  | Star r1 => Cat (deriv ic a r1) (Star r1)
  end.

(** Some prefix of [s] matches [r]: [pattern.match(s) is not None]. *)
Fixpoint match_prefix (ic : bool) (r : regex) (s : list ascii) : bool :=
  nullable r ||
  match s with
  | [] => false
  | a :: s' => match_prefix ic (deriv ic a r) s'
  end.

(** A match starts at some offset of [s]: [pattern.search(s) is not None]. *)
Fixpoint search_from (ic : bool) (r : regex) (s : list ascii) : bool :=
  match_prefix ic r s ||
  match s with
  | [] => false
  | _ :: s' => search_from ic r s'
  end.

(** ** The language of a pattern

    The declarative reading of the patterns, against which the
    matcher is checked in [PyReFacts]. *)
Inductive Matches (ic : bool) : regex -> list ascii -> Prop :=
| MatchesEps : Matches ic Eps []
| MatchesChr c a : chr_match ic c a = true -> Matches ic (Chr c) [a]
| MatchesAny a : Ascii.eqb a newline = false -> Matches ic AnyChar [a]
| MatchesSet neg ms a :
    set_match ic neg ms a = true -> Matches ic (CharSet neg ms) [a]
| MatchesCat r1 r2 s1 s2 :
    Matches ic r1 s1 -> Matches ic r2 s2 -> Matches ic (Cat r1 r2) (s1 ++ s2)
| MatchesAltL r1 r2 s : Matches ic r1 s -> Matches ic (Alt r1 r2) s
| MatchesAltR r1 r2 s : Matches ic r2 s -> Matches ic (Alt r1 r2) s
| MatchesStarNil r : Matches ic (Star r) []
| MatchesStarApp r s1 s2 :
    Matches ic r s1 -> Matches ic (Star r) s2 -> Matches ic (Star r) (s1 ++ s2).

(** ** The engine *)

Definition re_error (msg : string) (pos : nat) : exc :=
  Exc "re.error" true (msg ++ " at position " ++ dec pos).

(** The engine over the rest of the library. A pattern of the fragment
    is compiled here and decides the ASCII cells; any other pattern, and
    any other cell, is handed to [beyond], about which nothing is
    assumed. *)
Section Over.

Variable beyond : ReEngine.

Inductive pattern : Type :=
| Fragment (ignorecase : bool) (body : regex) (elsewhere : option (Pattern beyond))
| Elsewhere (p : Pattern beyond).

Definition compile (ic : bool) (pat : string) : result pattern :=
  match parse pat with
  | inr r =>
      inr (Fragment ic r
             match re_compile beyond ic pat with
             | inr p => Some p
             | inl _ => None
             end)
  | inl (Syntax msg pos) => inl (re_error msg pos)
  | inl OutsideFragment =>
      match re_compile beyond ic pat with
      | inr p => inr (Elsewhere p)
      | inl e => inl e
      end
  end.

Definition pattern_search (p : pattern) (s : string) : bool :=
  match p with
  | Fragment ic r other =>
      if ascii_text s then search_from ic r (chars s)
      else match other with
           | Some p' => re_search beyond p' s
           | None => false
           end
  | Elsewhere p' => re_search beyond p' s
  end.

Definition engine_over : ReEngine :=
  {| Pattern := pattern; re_compile := compile; re_search := pattern_search |}.

End Over.

(** The fragment alone, over an engine that rejects every pattern. The
    examples use it; their patterns and cells lie inside the fragment. *)
Definition engine : ReEngine := engine_over failing_engine.

End PyRe.

(* ===================================================================== *)
(** * The dataset and the data-frame operations the page uses *)
(* ===================================================================== *)

(** One row of the frameworks table. *)
Record FrameworkRecord : Type := {
  name : string;
  category : string;
  core_function : string;
  typical_uses : string
}.

(** The table, in row order. A [Series] is the list of its cells. *)
Definition DataFrame : Type := list FrameworkRecord.

Definition result_bind {A B : Type} (c : result A) (k : A -> result B) : result B :=
  match c with
  | inl e => inl e
  | inr a => k a
  end.

Notation "x <-! c ;; k" := (result_bind c (fun x => k))
  (at level 61, c at next level, right associativity).

Module Pandas.

(** [df[col]] *)
Definition column (col : FrameworkRecord -> string) (df : DataFrame) : list string :=
  map col df.

(** [series == value] *)
Definition series_eq (s : list string) (v : string) : list bool :=
  map (fun x => String.eqb x v) s.

(** [a | b] on boolean series of one frame. *)
Definition series_or (a b : list bool) : list bool :=
  map (fun p => orb (fst p) (snd p)) (combine a b).

(** [series.isin(values)] *)
Definition isin (s : list string) (values : list string) : list bool :=
  map (fun x => existsb (String.eqb x) values) s.

(** [df[mask]]: the rows whose mask cell is [True], in row order. *)
Fixpoint select_rows {A : Type} (df : list A) (mask : list bool) : list A :=
  match df, mask with
  | r :: df', b :: mask' =>
      if b then r :: select_rows df' mask' else select_rows df' mask'
  | _, _ => []
  end.

(** [series.str.contains(pat, case=case)] with the default [regex=True]:
    the pattern is compiled once, whatever the number of cells, and a
    pattern that does not compile raises. *)
Definition str_contains (re : ReEngine) (s : list string) (pat : string)
           (case : bool) : result (list bool) :=
  p <-! re_compile re (negb case) pat ;;
  inr (map (re_search re p) s).

(** ** [series.value_counts()] *)

(** Counting: one entry per distinct value, in order of first
    appearance. *)
Fixpoint count_into (tbl : list (string * nat)) (k : string) : list (string * nat) :=
  match tbl with
  | [] => [(k, 1)]
  | (k', n) :: tbl' =>
      if String.eqb k' k then (k', S n) :: tbl' else (k', n) :: count_into tbl' k
  end.

Definition count_values (s : list string) : list (string * nat) :=
  fold_left count_into s [].

(** [numpy.argsort] on the counts, as [sort_values] calls it with the
    default [kind='quicksort']: the table in ascending order of count.
    NumPy promises a sorted permutation and nothing about the order of
    equal counts, which changes with the size of the table, the version
    and the processor. The routine is a parameter. *)
Class Sorter : Type := {
  argsort : list (string * nat) -> list (string * nat);
  argsort_permutes : forall l, Permutation (argsort l) l;
  argsort_sorts : forall l, StronglySorted (fun a b => snd a <= snd b) (argsort l)
}.

(** [sort_values(ascending=False)]: reverse, sort ascending, reverse. *)
Definition sort_values_descending {np : Sorter} (l : list (string * nat))
  : list (string * nat) :=
  rev (argsort (rev l)).

Definition value_counts {np : Sorter} (s : list string) : list (string * nat) :=
  sort_values_descending (count_values s).

(** ** Two sorting routines

    An insertion sort that leaves equal counts in place, as a stable
    sort does, and one that puts the later of two equal counts first. *)
Fixpoint insert_by_count (x : string * nat) (l : list (string * nat))
  : list (string * nat) :=
  match l with
  | [] => [x]
  | y :: l' =>
      if snd x <=? snd y then x :: y :: l' else y :: insert_by_count x l'
  end.

Definition sort_by_count (l : list (string * nat)) : list (string * nat) :=
  fold_right insert_by_count [] l.

Fixpoint insert_after_ties (x : string * nat) (l : list (string * nat))
  : list (string * nat) :=
  match l with
  | [] => [x]
  | y :: l' =>
      if snd x <? snd y then x :: y :: l' else y :: insert_after_ties x l'
  end.

Definition sort_ties_reversed (l : list (string * nat)) : list (string * nat) :=
  fold_right insert_after_ties [] l.

Lemma insert_by_count_perm x l : Permutation (insert_by_count x l) (x :: l).
Proof.
  induction l as [|y l IH]; cbn; [reflexivity|].
  destruct (snd x <=? snd y); [reflexivity|].
  rewrite IH. apply perm_swap.
Qed.

Lemma sort_by_count_perm l : Permutation (sort_by_count l) l.
Proof.
  induction l as [|x l IH]; cbn; [reflexivity|].
  rewrite insert_by_count_perm. now constructor.
Qed.

Lemma insert_after_ties_perm x l : Permutation (insert_after_ties x l) (x :: l).
Proof.
  induction l as [|y l IH]; cbn [insert_after_ties]; [reflexivity|].
  destruct (snd x <? snd y); [reflexivity|].
  rewrite IH. apply perm_swap.
Qed.

Lemma sort_ties_reversed_perm l : Permutation (sort_ties_reversed l) l.
Proof.
  induction l as [|x l IH]; cbn; [reflexivity|].
  rewrite insert_after_ties_perm. now constructor.
Qed.

Lemma insert_by_count_ascending x l :
  StronglySorted (fun a b => snd a <= snd b) l ->
  StronglySorted (fun a b => snd a <= snd b) (insert_by_count x l).
Proof.
  induction l as [|y l IH]; cbn; intros Hs; [repeat constructor|].
  inversion Hs as [|? ? Hs' Hy]; subst.
  destruct (snd x <=? snd y) eqn:E.
  - apply Nat.leb_le in E. constructor; [assumption|].
    constructor; [assumption|].
    rewrite Forall_forall in *. intros z Hz. specialize (Hy z Hz). lia.
  - apply Nat.leb_gt in E. constructor; [auto|].
    eapply Permutation_Forall; [symmetry; apply insert_by_count_perm|].
    constructor; [lia | assumption].
Qed.

Lemma sort_by_count_ascending l :
  StronglySorted (fun a b => snd a <= snd b) (sort_by_count l).
Proof.
  induction l as [|x l IH]; cbn; [constructor | now apply insert_by_count_ascending].
Qed.

Lemma insert_after_ties_ascending x l :
  StronglySorted (fun a b => snd a <= snd b) l ->
  StronglySorted (fun a b => snd a <= snd b) (insert_after_ties x l).
Proof.
  induction l as [|y l IH]; cbn [insert_after_ties]; intros Hs; [repeat constructor|].
  inversion Hs as [|? ? Hs' Hy]; subst.
  destruct (snd x <? snd y) eqn:E.
  - apply Nat.ltb_lt in E. constructor; [assumption|].
    constructor; [lia|].
    rewrite Forall_forall in *. intros z Hz. specialize (Hy z Hz). lia.
  - apply Nat.ltb_ge in E. constructor; [auto|].
    eapply Permutation_Forall; [symmetry; apply insert_after_ties_perm|].
    constructor; [lia | assumption].
Qed.

Lemma sort_ties_reversed_ascending l :
  StronglySorted (fun a b => snd a <= snd b) (sort_ties_reversed l).
Proof.
  induction l as [|x l IH]; cbn; [constructor | now apply insert_after_ties_ascending].
Qed.

(** The sort that keeps equal counts in place; the examples use it. *)
#[export] Instance stable_sort : Sorter :=
  {| argsort := sort_by_count;
     argsort_permutes := sort_by_count_perm;
     argsort_sorts := sort_by_count_ascending |}.

(** A sort that is not stable. *)
Definition unstable_sort : Sorter :=
  {| argsort := sort_ties_reversed;
     argsort_permutes := sort_ties_reversed_perm;
     argsort_sorts := sort_ties_reversed_ascending |}.

End Pandas.

Import Text Pandas.

(** The quick search of the home page (the filter expression of
    [show_home_page]): the rows whose name, core function or typical uses
    contain [search_term]. *)
Definition search (re : ReEngine) (frameworks_df : DataFrame) (search_term : string)
  : result DataFrame :=
  in_name <-! str_contains re (column name frameworks_df) search_term false ;;
  in_core <-! str_contains re (column core_function frameworks_df) search_term false ;;
  in_uses <-! str_contains re (column typical_uses frameworks_df) search_term false ;;
  inr (select_rows frameworks_df (series_or (series_or in_name in_core) in_uses)).

Definition featured_frameworks : list string :=
  [ "SWOT Analysis";
    "Business Model Canvas";
    "Porter's Five Forces";
    "Design Thinking";
    "Lean Management" ].

(** [frameworks_df[frameworks_df['name'].isin(names)]] *)
Definition select_featured (frameworks_df : DataFrame) (names : list string) : DataFrame :=
  select_rows frameworks_df (isin (column name frameworks_df) names).

(** [frameworks_df['category'].value_counts()] *)
Definition category_counts {np : Sorter} (frameworks_df : DataFrame)
  : list (string * nat) :=
  value_counts (column category frameworks_df).

(** The literal reading of the search: [q] occurs, up to case, in one of
    the three text fields of [r]. *)
Definition field_contains (q : string) (r : FrameworkRecord) : bool :=
  contains_ci q (name r) || contains_ci q (core_function r) || contains_ci q (typical_uses r).

(* ===================================================================== *)
(** * The user interface: one render pass *)
(* ===================================================================== *)

Inductive Page : Type :=
| Home
| FrameworkExplorer
| ComparativeAnalysis
| IndustryRecommendations
| FrameworkRelationships.

Definition page_label (p : Page) : string :=
  match p with
  | Home => "Home"
  | FrameworkExplorer => "Framework Explorer"
  | ComparativeAnalysis => "Comparative Analysis"
  | IndustryRecommendations => "Industry Recommendations"
  | FrameworkRelationships => "Framework Relationships"
  end.

Definition all_pages : list Page :=
  [Home; FrameworkExplorer; ComparativeAnalysis; IndustryRecommendations;
   FrameworkRelationships].

(** What the user has entered when the script runs: the sidebar selection
    and the content of the search box. *)
Record session : Type := {
  radio_choice : Page;
  text_value : string
}.

(** What a render pass puts on the screen. *)
Inductive widget : Type :=
| Title (s : string)
| Markdown (s : string)
| SidebarTitle (s : string)
| SidebarRadio (label : string) (options : list string)
| Write (s : string)
| ErrorBox (s : string)
| WarningBox (s : string)
| Columns (n : nat)
| Metric (label value : string)
| Subheader (s : string)
| BarChart (title : string) (x : list string) (y : list nat)
| TextInput (label : string)
| Dataframe (rows : list (list string))
| Expander (label : string).

(** A script fragment: reads the session, appends to the screen, and
    returns or raises. *)
Definition M (A : Type) : Type := session -> list widget -> result A * list widget.

Definition ret {A : Type} (a : A) : M A := fun _ scr => (inr a, scr).

Definition bind {A B : Type} (c : M A) (k : A -> M B) : M B :=
  fun ses scr =>
    match c ses scr with
    | (inl e, scr') => (inl e, scr')
    | (inr a, scr') => k a ses scr'
    end.

Notation "x <- c ;; k" := (bind c (fun x => k))
  (at level 61, c at next level, right associativity).
Notation "c ;; k" := (bind c (fun _ => k))
  (at level 61, right associativity).

Definition show (w : widget) : M unit := fun _ scr => (inr tt, scr ++ [w]).

(** A pure computation that may raise, run inside the script. *)
Definition lift {A : Type} (c : result A) : M A := fun _ scr => (c, scr).

(** [px.bar(x=..., y=..., title=...)]. Given an empty [x] and an empty
    [y], plotly takes both for lists of column names and raises. *)
Definition empty_chart_error : exc :=
  Exc "ValueError" true
      "Cannot accept list of column references or list of columns for both `x` and `y`.".

Definition px_bar (x : list string) (y : list nat) (title : string) : result widget :=
  match x, y with
  | [], [] => inl empty_chart_error
  | _, _ => inr (BarChart title x y)
  end.

(** [try: body / except Exception as e: handler e]. Only exceptions whose
    class derives from [Exception] are caught. *)
Definition try_except {A : Type} (body : M A) (handler : exc -> M A) : M A :=
  fun ses scr =>
    match body ses scr with
    | (inl e, scr') =>
        if is_Exception e then handler e ses scr' else (inl e, scr')
    | ok => ok
    end.

Fixpoint for_each {A : Type} (l : list A) (body : A -> M unit) : M unit :=
  match l with
  | [] => ret tt
  | a :: l' => body a ;; for_each l' body
  end.

Definition st_sidebar_radio (label : string) (options : list string) : M string :=
  fun ses scr => (inr (page_label (radio_choice ses)), scr ++ [SidebarRadio label options]).

Definition st_text_input (label : string) : M string :=
  fun ses scr => (inr (text_value ses), scr ++ [TextInput label]).

(** The collaborators of [app.py] that live in other modules: the dataset
    provider and the four page modules. A page entry stands for
    [import pages.x as m; m.show_page()]. *)
Record Host : Type := {
  get_all_frameworks : M DataFrame;
  get_framework_categories : M (list string);
  framework_explorer_page : M unit;
  comparative_analysis_page : M unit;
  industry_recommendations_page : M unit;
  framework_relationships_page : M unit
}.

Section App.

Context {np : Sorter}.
Variable re : ReEngine.
Variable host : Host.

(** [show_home_page], block by block, under the headings of its comments. *)

Definition key_metrics (frameworks_df : DataFrame) (categories : list string) : M unit :=
  show (Columns 4) ;;
  show (Metric "Total Frameworks" (dec (List.length frameworks_df))) ;;
  show (Metric "Categories" (dec (List.length categories))) ;;
  show (Metric "Strategic Frameworks"
          (dec (List.length (select_rows frameworks_df
                          (series_eq (column category frameworks_df)
                                     "Strategic Planning Frameworks"))))) ;;
  show (Metric "Industries Covered" "10+") ;;
  show (Markdown "---").

Definition category_overview (frameworks_df : DataFrame) : M unit :=
  show (Subheader "📊 Framework Categories Overview") ;;
  let category_counts := category_counts frameworks_df in
  fig <- lift (px_bar (map fst category_counts) (map snd category_counts)
                      "Number of Frameworks by Category") ;;
  show fig.

Definition table_row (r : FrameworkRecord) : list string :=
  [name r; category r; core_function r; typical_uses r].

Definition quick_search (frameworks_df : DataFrame) : M unit :=
  show (Subheader "🔍 Quick Framework Search") ;;
  search_term <- st_text_input "Search for a framework:" ;;
  if negb (String.eqb search_term "") then
    filtered_frameworks <- lift (search re frameworks_df search_term) ;;
    match filtered_frameworks with
    | _ :: _ => show (Dataframe (map table_row filtered_frameworks))
    | [] => show (WarningBox "No frameworks found matching your search.")
    end
  else ret tt.

Definition featured (frameworks_df : DataFrame) : M unit :=
  show (Subheader "⭐ Featured Frameworks") ;;
  let featured_df := select_featured frameworks_df featured_frameworks in
  for_each featured_df (fun framework =>
    show (Expander ("📋 " ++ name framework)) ;;
    show (Write ("**Category:** " ++ category framework)) ;;
    show (Write ("**Core Function:** " ++ core_function framework)) ;;
    show (Write ("**Typical Uses:** " ++ typical_uses framework))).

Definition getting_started : M unit :=
  show (Subheader "🚀 Getting Started") ;;
  show (Markdown (String.concat newline_string
    [ "";
      "    **How to use this platform:**";
      "    ";
      "    1. **Framework Explorer** - Dive deep into individual frameworks with interactive parameters";
      "    2. **Comparative Analysis** - Compare multiple frameworks side by side";
      "    3. **Industry Recommendations** - Get framework suggestions based on your industry";
      "    4. **Framework Relationships** - Explore how frameworks connect and complement each other";
      "    ";
      "    **Tips:**";
      "    - Use the sidebar to navigate between different sections";
      "    - Adjust sliders and parameters to see real-time visualizations";
      "    - Export your analysis results for presentations";
      "    " ])).

Definition show_home_page (frameworks_df : DataFrame) (categories : list string) : M unit :=
  key_metrics frameworks_df categories ;;
  category_overview frameworks_df ;;
  quick_search frameworks_df ;;
  featured frameworks_df ;;
  getting_started.

(** The body of the [try] block of [main]. *)
Definition route (page : string) (frameworks_df : DataFrame) (categories : list string)
  : M unit :=
  if String.eqb page "Home" then
    show_home_page frameworks_df categories
  else if String.eqb page "Framework Explorer" then
    show (Write "Loading Framework Explorer...") ;;
    framework_explorer_page host
  else if String.eqb page "Comparative Analysis" then
    show (Write "Loading Comparative Analysis...") ;;
    comparative_analysis_page host
  else if String.eqb page "Industry Recommendations" then
    show (Write "Loading Industry Recommendations...") ;;
    industry_recommendations_page host
  else if String.eqb page "Framework Relationships" then
    show (Write "Loading Framework Relationships...") ;;
    framework_relationships_page host
  else ret tt.

Definition page_error_message (page : string) (e : exc) : string :=
  "Error loading page '" ++ page ++ "': " ++ exc_str e.

Definition report_error (page : string) (e : exc) : M unit :=
  show (ErrorBox (page_error_message page e)) ;;
  show (Write "Please try refreshing the page or contact support if the issue persists.").

Definition main : M unit :=
  show (Title "🎯 Business Framework Analysis Platform") ;;
  show (Markdown "### Comprehensive analysis of 100+ business frameworks with interactive visualizations") ;;
  show (SidebarTitle "Navigation") ;;
  page <- st_sidebar_radio "Select a page:" (map page_label all_pages) ;;
  frameworks_df <- get_all_frameworks host ;;
  categories <- get_framework_categories host ;;
  try_except (route page frameworks_df categories) (report_error page).

End App.

(* ===================================================================== *)
(** * Specification vocabulary and sample data *)
(* ===================================================================== *)

(** The rows a compiled pattern keeps. *)
Definition row_matches (re : ReEngine) (p : Pattern re) (r : FrameworkRecord) : bool :=
  re_search re p (name r) || re_search re p (core_function r)
  || re_search re p (typical_uses r).

(** The offset of the first cell of [s] that holds [k] (the length of [s]
    when there is none). *)
Fixpoint first_index (k : string) (s : list string) : nat :=
  match s with
  | [] => 0
  | x :: s' => if String.eqb x k then 0 else S (first_index k s')
  end.

(** The order of a histogram over the column [s]: larger counts first,
    equal counts by first appearance in [s]. *)
Definition histogram_order (s : list string) (a b : string * nat) : Prop :=
  snd b < snd a \/
  (snd a = snd b /\ first_index (fst a) s < first_index (fst b) s).

(** The distinct values of a column, in order of first appearance. *)
Definition uniq_add (keys : list string) (k : string) : list string :=
  if existsb (String.eqb k) keys then keys else keys ++ [k].

Definition first_seen (s : list string) : list string := fold_left uniq_add s [].

(** Ascending counts; among equal counts, decreasing [rank]. *)
Definition ascending (rank : string * nat -> nat) (a b : string * nat) : Prop :=
  snd a < snd b \/ (snd a = snd b /\ rank b < rank a).

Definition swot : FrameworkRecord :=
  {| name := "SWOT Analysis"; category := "Strategic Planning Frameworks";
     core_function := "Identify strengths/weaknesses"; typical_uses := "Strategy sessions" |}.
Definition design_thinking : FrameworkRecord :=
  {| name := "Design Thinking"; category := "Innovation";
     core_function := "Human-centered ideation"; typical_uses := "Product design" |}.
Definition sample : DataFrame := [swot; design_thinking].

(** [l1] is [l2] with some elements left out, the others in place. *)
Inductive Subsequence {A : Type} : list A -> list A -> Prop :=
| Subsequence_nil : Subsequence [] []
| Subsequence_skip x l1 l2 : Subsequence l1 l2 -> Subsequence l1 (x :: l2)
| Subsequence_keep x l1 l2 : Subsequence l1 l2 -> Subsequence (x :: l1) (x :: l2).

Definition raise {A : Type} (e : exc) : M A := fun _ scr => (inl e, scr).

(** What [main] shows before it loads the data. *)
Definition header_widgets : list widget :=
  [ Title "🎯 Business Framework Analysis Platform";
    Markdown "### Comprehensive analysis of 100+ business frameworks with interactive visualizations";
    SidebarTitle "Navigation";
    SidebarRadio "Select a page:" (map page_label all_pages) ].

Definition search_widgets : list widget :=
  [ Subheader "🔍 Quick Framework Search"; TextInput "Search for a framework:" ].

Definition error_widgets (page : string) (e : exc) : list widget :=
  [ ErrorBox (page_error_message page e);
    Write "Please try refreshing the page or contact support if the issue persists." ].

Definition sample_categories : list string :=
  ["Strategic Planning Frameworks"; "Innovation"].

(** A host whose Framework Explorer page fails. *)
Definition sample_host : Host :=
  {| get_all_frameworks := ret sample;
     get_framework_categories := ret sample_categories;
     framework_explorer_page := raise (Exc "ValueError" true "explorer data missing");
     comparative_analysis_page := ret tt;
     industry_recommendations_page := ret tt;
     framework_relationships_page := ret tt |}.

(** A host whose dataset provider fails. *)
Definition offline_host : Host :=
  {| get_all_frameworks := raise (Exc "FileNotFoundError" true "frameworks.csv");
     get_framework_categories := ret sample_categories;
     framework_explorer_page := ret tt;
     comparative_analysis_page := ret tt;
     industry_recommendations_page := ret tt;
     framework_relationships_page := ret tt |}.

(** The handler the router runs for a page, and what the router writes
    before handing over to it. *)
Definition page_handler {np : Sorter} (re : ReEngine) (host : Host) (p : Page)
           (frameworks_df : DataFrame) (categories : list string) : M unit :=
  match p with
  | Home => show_home_page re frameworks_df categories
  | FrameworkExplorer => framework_explorer_page host
  | ComparativeAnalysis => comparative_analysis_page host
  | IndustryRecommendations => industry_recommendations_page host
  | FrameworkRelationships => framework_relationships_page host
  end.

Definition loading_widgets (p : Page) : list widget :=
  match p with
  | Home => []
  | _ => [Write ("Loading " ++ page_label p ++ "...")]
  end.


(** [s.lower()] of an ASCII text. *)
Definition lowercase (s : string) : string :=
  string_of_list_ascii (map lower (chars s)).

(** The three searched fields of a record, and of every record of a
    table, are ASCII text. *)
Definition ascii_record (r : FrameworkRecord) : bool :=
  ascii_text (name r) && ascii_text (core_function r) && ascii_text (typical_uses r).

Definition ascii_frame (D : DataFrame) : bool := forallb ascii_record D.

(** What the key metrics block puts on the screen. *)
Definition metric_widgets (frameworks_df : DataFrame) (categories : list string)
  : list widget :=
  [ Columns 4;
    Metric "Total Frameworks" (dec (List.length frameworks_df));
    Metric "Categories" (dec (List.length categories));
    Metric "Strategic Frameworks"
      (dec (List.length (select_rows frameworks_df
                           (series_eq (column category frameworks_df)
                                      "Strategic Planning Frameworks"))));
    Metric "Industries Covered" "10+";
    Markdown "---" ].

Definition chart_heading : widget := Subheader "📊 Framework Categories Overview".

(** What the category overview puts on the screen of a dataset that is
    not empty. *)
Definition chart_widgets {np : Sorter} (frameworks_df : DataFrame) : list widget :=
  [ chart_heading;
    BarChart "Number of Frameworks by Category"
             (map fst (category_counts frameworks_df))
             (map snd (category_counts frameworks_df)) ].

Definition no_results_notice : widget :=
  WarningBox "No frameworks found matching your search.".

(** The expander of one featured framework and its three lines. *)
Definition card (framework : FrameworkRecord) : list widget :=
  [ Expander ("📋 " ++ name framework);
    Write ("**Category:** " ++ category framework);
    Write ("**Core Function:** " ++ core_function framework);
    Write ("**Typical Uses:** " ++ typical_uses framework) ].

(** A record of a given name and category, and a table in which two
    pairs of categories tie. *)
Definition framework_in (n c : string) : FrameworkRecord :=
  {| name := n; category := c; core_function := ""; typical_uses := "" |}.

Definition tied_frame : DataFrame :=
  [ framework_in "f0" "c0"; framework_in "f1" "c1"; framework_in "f2" "c2";
    framework_in "f3" "c3"; framework_in "f4" "c2"; framework_in "f5" "c3" ].

Definition lean_management : FrameworkRecord :=
  {| name := "Lean Management"; category := "Innovation";
     core_function := "Eliminate waste"; typical_uses := "Operations" |}.

(** A host whose Framework Explorer page ends the script the way
    [sys.exit] does. *)
Definition exiting_host : Host :=
  {| get_all_frameworks := ret sample;
     get_framework_categories := ret sample_categories;
     framework_explorer_page := raise (Exc "SystemExit" false "");
     comparative_analysis_page := ret tt;
     industry_recommendations_page := ret tt;
     framework_relationships_page := ret tt |}.

(** The pages of [sample_host] over another dataset. *)
Definition other_host : Host :=
  {| get_all_frameworks := ret [lean_management];
     get_framework_categories := ret ["Innovation"];
     framework_explorer_page := raise (Exc "ValueError" true "explorer data missing");
     comparative_analysis_page := ret tt;
     industry_recommendations_page := ret tt;
     framework_relationships_page := ret tt |}.


(* ===================================================================== *)
(** * Properties of the pattern engine on literal patterns *)
(* ===================================================================== *)

Module PyReFacts.
Import PyRe.

Lemma is_special_false c :
  is_special c = false ->
  classify c = TLit c \/ classify c = TMinus.
Proof.
  unfold is_special, special_chars. cbn [list_ascii_of_string existsb].
  intros H. repeat (apply orb_false_elim in H; destruct H as [?E H]).
  unfold classify. rewrite E, E0, E1, E2, E3, E4, E5, E6, E7, E8, E9, E10, E11, E12.
  destruct (Ascii.eqb c "-"); auto.
Qed.

Lemma step_plain st pos c p :
  is_special c = false -> pmode st = Normal p ->
  step st pos c = inr (push_item st (Chr c)).
Proof.
  intros Hc Hm. unfold step. rewrite Hm.
  destruct (is_special_false c Hc) as [-> | ->]; reflexivity.
Qed.

Lemma parse_loop_plain q : forall st pos p,
  forallb (fun c => negb (is_special c)) q = true ->
  pmode st = Normal p ->
  parse_loop st pos q =
  finish (PState (outer st)
                 (Frame (open_pos (cur st)) (branches (cur st))
                        (rev (plain_items q) ++ items (cur st)))
                 (Normal PrevNone)).
Proof.
  induction q as [|c q IH]; intros st pos p Hq Hm; cbn [parse_loop].
  - destruct st as [o [op bs its] m]. cbn in *. subst m. reflexivity.
  - cbn [forallb] in Hq. apply andb_prop in Hq. destruct Hq as [Hc Hq].
    apply negb_true_iff in Hc.
    rewrite (step_plain st pos c p Hc Hm).
    rewrite (IH (push_item st (Chr c)) (S pos) PrevNone Hq eq_refl).
    cbn. rewrite <- app_assoc. reflexivity.
Qed.

(** A query free of special characters compiles to the sequence of its
    characters. *)
Lemma plain_in_alphabet q :
  meta_free q = true -> ascii_text q = true -> in_alphabet q = true.
Proof.
  unfold meta_free, ascii_text, in_alphabet.
  induction (chars q) as [|c l IH]; cbn [forallb]; [reflexivity|].
  intros Hm Ha. apply andb_prop in Hm. apply andb_prop in Ha.
  destruct Hm as [Hc Hm], Ha as [Hac Ha].
  rewrite Hac, (IH Hm Ha), andb_true_r. cbn [andb].
  apply negb_true_iff in Hc. unfold is_special, special_chars in Hc.
  cbn [list_ascii_of_string existsb] in Hc.
  repeat (apply orb_false_elim in Hc; destruct Hc as [?E Hc]).
  now rewrite E9.
Qed.

Lemma parse_plain q :
  meta_free q = true -> ascii_text q = true ->
  parse q = inr (seq_regex (map Chr (chars q))).
Proof.
  intros Hq Ha. unfold parse. rewrite (plain_in_alphabet q Hq Ha).
  rewrite (parse_loop_plain (chars q) initial 0 PrevNone Hq eq_refl).
  cbn. rewrite app_nil_r. unfold plain_items.
  rewrite map_rev, rev_involutive, map_map. reflexivity.
Qed.

(** ** The matcher decides the language of the pattern *)

Lemma nullable_Matches ic r : nullable r = true <-> Matches ic r [].
Proof.
  split.
  - induction r; cbn; intros H; try discriminate.
    + constructor.
    + apply andb_prop in H. destruct H.
      apply (MatchesCat ic r1 r2 [] []); auto.
    + apply orb_prop in H. destruct H; [apply MatchesAltL | apply MatchesAltR]; auto.
    + constructor.
  - intros H. remember [] as s eqn:Es. induction H; cbn; try discriminate; auto.
    + apply app_eq_nil in Es. destruct Es. rewrite IHMatches1, IHMatches2; auto.
    + rewrite IHMatches; auto.
    + rewrite IHMatches; auto using orb_true_r.
Qed.

Lemma deriv_sound ic a r : forall s, Matches ic (deriv ic a r) s -> Matches ic r (a :: s).
Proof.
  induction r; cbn [deriv]; intros s H.
  - inversion H.
  - inversion H.
  - destruct (chr_match ic c a) eqn:E; inversion H; subst. now constructor.
  - destruct (Ascii.eqb a newline) eqn:E; inversion H; subst. now constructor.
  - destruct (set_match ic negated members a) eqn:E; inversion H; subst.
    now constructor.
  - destruct (nullable r1) eqn:N.
    + inversion H as [| | | | | ? ? ? H1 | ? ? ? H2 | |]; subst.
      * inversion H1; subst.
        apply (MatchesCat ic r1 r2 (a :: s1) s2); auto.
      * apply (MatchesCat ic r1 r2 [] (a :: s)); auto.
        now apply nullable_Matches.
    + inversion H; subst.
      apply (MatchesCat ic r1 r2 (a :: s1) s2); auto.
  - inversion H; subst; [apply MatchesAltL | apply MatchesAltR]; auto.
  - inversion H; subst.
    apply (MatchesStarApp ic r (a :: s1) s2); auto.
Qed.

Lemma deriv_complete ic a r w :
  Matches ic r w -> forall s, w = a :: s -> Matches ic (deriv ic a r) s.
Proof.
  induction 1 as [ | c b Hc | b Hb | neg ms b Hb
                   | r1 r2 s1 s2 H1 IH1 H2 IH2
                   | r1 r2 s0 H1 IH1 | r1 r2 s0 H2 IH2
                   | r0 | r0 s1 s2 H1 IH1 H2 IH2 ];
    intros s E; cbn [deriv].
  - discriminate.
  - injection E as E1 E2. subst. rewrite Hc. constructor.
  - injection E as E1 E2. subst. rewrite Hb. constructor.
  - injection E as E1 E2. subst. rewrite Hb. constructor.
  - destruct s1 as [|b s1]; cbn in E.
    + apply (nullable_Matches ic) in H1. rewrite H1.
      apply MatchesAltR. now apply IH2.
    + injection E as E1 E2. subst.
      assert (Matches ic (Cat (deriv ic a r1) r2) (s1 ++ s2))
        by (constructor; auto).
      destruct (nullable r1); [now apply MatchesAltL | assumption].
  - apply MatchesAltL. now apply IH1.
  - apply MatchesAltR. now apply IH2.
  - discriminate.
  - destruct s1 as [|b s1]; cbn in E.
    + now apply IH2.
    + injection E as E1 E2. subst. constructor; auto.
Qed.

Lemma deriv_Matches ic a r s :
  Matches ic (deriv ic a r) s <-> Matches ic r (a :: s).
Proof.
  split; [apply deriv_sound | intros H; now apply (deriv_complete ic a r (a :: s))].
Qed.

(** [match_prefix] holds exactly when a prefix of [s] is in the
    language of [r]. *)
Lemma match_prefix_Matches ic s : forall r,
  match_prefix ic r s = true <-> exists s1 s2, s = s1 ++ s2 /\ Matches ic r s1.
Proof.
  induction s as [|a s IH]; intros r; cbn [match_prefix].
  - rewrite orb_false_r, (nullable_Matches ic). split.
    + intros H. now exists [], [].
    + intros [s1 [s2 [E H]]]. symmetry in E. apply app_eq_nil in E.
      destruct E; now subst.
  - rewrite orb_true_iff, IH, (nullable_Matches ic). split.
    + intros [H | [s1 [s2 [E H]]]].
      * now exists [], (a :: s).
      * exists (a :: s1), s2. split; [cbn; now rewrite E|].
        now apply deriv_Matches.
    + intros [[|b s1] [s2 [E H]]]; [now left|].
      right. injection E as E1 E2. subst. exists s1, s2. split; [reflexivity|].
      now apply deriv_Matches.
Qed.

(** [search_from] holds exactly when some substring of [s] is in the
    language of [r]. *)
Lemma search_from_Matches ic r s :
  search_from ic r s = true <->
  exists s0 s1 s2, s = s0 ++ s1 ++ s2 /\ Matches ic r s1.
Proof.
  induction s as [|a s IH]; cbn [search_from].
  - rewrite orb_false_r, match_prefix_Matches. split.
    + intros [s1 [s2 [E H]]]. now exists [], s1, s2.
    + intros [s0 [s1 [s2 [E H]]]]. symmetry in E.
      apply app_eq_nil in E. destruct E as [-> E]. now exists s1, s2.
  - rewrite orb_true_iff, IH, match_prefix_Matches. split.
    + intros [[s1 [s2 [E H]]] | [s0 [s1 [s2 [E H]]]]].
      * now exists [], s1, s2.
      * exists (a :: s0), s1, s2. split; [cbn; now rewrite E | assumption].
    + intros [[|b s0] [s1 [s2 [E H]]]].
      * left. now exists s1, s2.
      * right. injection E as E1 E2. subst. now exists s0, s1, s2.
Qed.

Lemma match_prefix_Alt ic s : forall r1 r2,
  match_prefix ic (Alt r1 r2) s = match_prefix ic r1 s || match_prefix ic r2 s.
Proof.
  induction s as [|a s IH]; intros r1 r2; cbn.
  - now rewrite !orb_false_r.
  - rewrite IH.
    destruct (nullable r1), (nullable r2); cbn; auto using orb_true_r.
Qed.

Lemma match_prefix_Cat_Empty ic r s : match_prefix ic (Cat Empty r) s = false.
Proof. induction s as [|a s IH]; cbn; auto. Qed.

Lemma match_prefix_Empty ic s : match_prefix ic Empty s = false.
Proof. induction s as [|a s IH]; cbn; auto. Qed.

Lemma match_prefix_Cat_Eps ic r s :
  match_prefix ic (Cat Eps r) s = match_prefix ic r s.
Proof.
  destruct s as [|a s]; cbn; [now rewrite orb_false_r|].
  now rewrite match_prefix_Alt, match_prefix_Cat_Empty.
Qed.

Lemma match_prefix_plain q : forall s,
  match_prefix true (seq_regex (map Chr q)) s = prefix_ci q s.
Proof.
  induction q as [|c q IH]; intros s.
  - destruct s; reflexivity.
  - destruct s as [|a s]; [reflexivity|].
    cbn [map seq_regex fold_right match_prefix nullable deriv orb andb prefix_ci chr_match].
    fold (seq_regex (map Chr q)).
    destruct (eq_ci c a); cbn [andb].
    + now rewrite match_prefix_Cat_Eps.
    + apply match_prefix_Cat_Empty.
Qed.

Lemma search_from_plain q s :
  search_from true (seq_regex (map Chr q)) s = occurs_ci q s.
Proof.
  induction s as [|a s IH]; cbn [search_from occurs_ci];
    rewrite match_prefix_plain; [reflexivity | now rewrite IH].
Qed.

(** On an ASCII query free of special characters the engine compiles,
    whatever lies beyond the fragment, and its search of an ASCII cell
    is literal containment up to case. *)
Lemma compile_plain beyond q :
  meta_free q = true -> ascii_text q = true ->
  exists p,
    compile beyond true q = inr p /\
    forall s, ascii_text s = true -> pattern_search beyond p s = contains_ci q s.
Proof.
  intros Hq Ha. unfold compile. rewrite (parse_plain q Hq Ha).
  eexists. split; [reflexivity|]. intros s Hs.
  unfold pattern_search, contains_ci. rewrite Hs. apply search_from_plain.
Qed.

(** ** The errors and the readings of [re.compile] on small patterns *)

Example compile_open_paren :
  compile failing_engine true "(" = inl (re_error "missing ), unterminated subpattern" 0).
Proof. reflexivity. Qed.

Example compile_close_paren :
  compile failing_engine true "a)" = inl (re_error "unbalanced parenthesis" 1).
Proof. reflexivity. Qed.

Example compile_lone_star :
  compile failing_engine true "*" = inl (re_error "nothing to repeat" 0).
Proof. reflexivity. Qed.

Example compile_double_star :
  compile failing_engine true "a**" = inl (re_error "multiple repeat" 2).
Proof. reflexivity. Qed.

Example compile_alternation :
  compile failing_engine true "swot|lean" =
  inr (Fragment failing_engine true
         (Alt (seq_regex (map Chr (chars "swot"))) (seq_regex (map Chr (chars "lean"))))
         None).
Proof. reflexivity. Qed.

Example search_is_unanchored_and_folds_case :
  pattern_search failing_engine
    (Fragment failing_engine true (seq_regex (map Chr (chars "wot"))) None)
    "SWOT Analysis" = true /\
  pattern_search failing_engine
    (Fragment failing_engine false (seq_regex (map Chr (chars "wot"))) None)
    "SWOT Analysis" = false.
Proof. split; reflexivity. Qed.

End PyReFacts.

(* ===================================================================== *)
(** * Properties of the data-frame operations *)
(* ===================================================================== *)

Lemma select_rows_map {A : Type} (f : A -> bool) (df : list A) :
  select_rows df (map f df) = filter f df.
Proof.
  induction df as [|r df IH]; cbn; [reflexivity|].
  rewrite IH. reflexivity.
Qed.

Lemma series_or_map {A : Type} (f g : A -> bool) (l : list A) :
  series_or (map f l) (map g l) = map (fun x => f x || g x) l.
Proof.
  unfold series_or. induction l as [|x l IH]; cbn; [reflexivity|].
  now rewrite IH.
Qed.

Lemma filter_Subsequence {A : Type} (f : A -> bool) (l : list A) :
  Subsequence (filter f l) l.
Proof.
  induction l as [|x l IH]; cbn; [constructor|].
  destruct (f x); now constructor.
Qed.

Lemma Subsequence_In {A : Type} (l1 l2 : list A) :
  Subsequence l1 l2 -> forall x, In x l1 -> In x l2.
Proof.
  induction 1; intros y Hy; cbn in *; intuition.
Qed.

(** [search] compiles the query and filters the rows, or raises what the
    compilation raises. *)
Lemma search_unfold re D q :
  search re D q =
  match re_compile re true q with
  | inl e => inl e
  | inr p => inr (filter (row_matches re p) D)
  end.
Proof.
  unfold search, str_contains, column. cbn [negb].
  destruct (re_compile re true q) as [e|p]; cbn [result_bind]; [reflexivity|].
  rewrite !map_map, !series_or_map.
  rewrite (select_rows_map (row_matches re p)). reflexivity.
Qed.

Lemma search_returns re D q p :
  re_compile re true q = inr p -> search re D q = inr (filter (row_matches re p) D).
Proof. intros H. now rewrite search_unfold, H. Qed.

(* ===================================================================== *)
(** * Properties of [value_counts] *)
(* ===================================================================== *)

Module ValueCountsFacts.

Lemma existsb_eqb_In k keys : existsb (String.eqb k) keys = true <-> In k keys.
Proof.
  rewrite existsb_exists. split.
  - intros [x [Hx E]]. apply String.eqb_eq in E. now subst.
  - intros H. exists k. split; [assumption | apply String.eqb_refl].
Qed.

Lemma existsb_eqb_not_In k keys : existsb (String.eqb k) keys = false <-> ~ In k keys.
Proof.
  rewrite <- existsb_eqb_In. destruct (existsb (String.eqb k) keys); intuition congruence.
Qed.

Lemma first_seen_snoc s k : first_seen (s ++ [k]) = uniq_add (first_seen s) k.
Proof. unfold first_seen. now rewrite fold_left_app. Qed.

Lemma count_values_snoc s k : count_values (s ++ [k]) = count_into (count_values s) k.
Proof. unfold count_values. now rewrite fold_left_app. Qed.

Lemma In_uniq_add keys k x : In x (uniq_add keys k) <-> In x keys \/ x = k.
Proof.
  unfold uniq_add. destruct (existsb (String.eqb k) keys) eqn:E.
  - apply existsb_eqb_In in E. intuition (subst; auto).
  - rewrite in_app_iff. cbn. intuition.
Qed.

Lemma In_first_seen s : forall k, In k (first_seen s) <-> In k s.
Proof.
  induction s as [|x s IH] using rev_ind; intros k.
  - reflexivity.
  - rewrite first_seen_snoc, In_uniq_add, in_app_iff, IH. cbn. intuition.
Qed.

Lemma NoDup_first_seen s : NoDup (first_seen s).
Proof.
  induction s as [|x s IH] using rev_ind; [constructor|].
  rewrite first_seen_snoc. unfold uniq_add.
  destruct (existsb (String.eqb x) (first_seen s)) eqn:E; [assumption|].
  apply existsb_eqb_not_In in E.
  apply NoDup_rev in IH. rewrite <- (rev_involutive (_ ++ _)), rev_app_distr.
  apply NoDup_rev. cbn. constructor; [rewrite <- in_rev|]; assumption.
Qed.

(** Counting one more cell [k] in a table that lists each key once. *)
Lemma count_into_map (g g' : string -> nat) k : forall keys,
  NoDup keys ->
  g' k = S (g k) ->
  (forall x, x <> k -> g' x = g x) ->
  (~ In k keys -> g k = 0) ->
  count_into (map (fun x => (x, g x)) keys) k =
  map (fun x => (x, g' x)) (uniq_add keys k).
Proof.
  intros keys Hnd Hk Hother Hnew. unfold uniq_add.
  induction keys as [|y keys IH]; cbn.
  - rewrite Hk, Hnew; auto.
  - inversion Hnd as [|? ? Hy Hnd']; subst.
    rewrite String.eqb_sym.
    destruct (String.eqb k y) eqn:E; cbn.
    + apply String.eqb_eq in E. subst y. rewrite Hk. f_equal.
      apply map_ext_in. intros x Hx. rewrite Hother; [reflexivity|].
      intros ->. contradiction.
    + apply String.eqb_neq in E.
      assert (Hnew' : ~ In k keys -> g k = 0).
      { intros Hn. apply Hnew. cbn. intuition congruence. }
      specialize (IH Hnd' Hnew').
      destruct (existsb (String.eqb k) keys); cbn;
        rewrite (Hother y) by congruence; f_equal; exact IH.
Qed.

(** The table built by counting: each distinct value once, in order of
    first appearance, with the number of its cells. *)
Lemma count_values_closed s :
  count_values s = map (fun k => (k, count_occ string_dec s k)) (first_seen s).
Proof.
  induction s as [|x s IH] using rev_ind; [reflexivity|].
  rewrite count_values_snoc, first_seen_snoc, IH.
  apply count_into_map.
  - apply NoDup_first_seen.
  - rewrite count_occ_app. cbn. destruct (string_dec x x); [lia | congruence].
  - intros y Hy. rewrite count_occ_app. cbn.
    destruct (string_dec x y); [congruence | lia].
  - intros Hn. rewrite In_first_seen in Hn. now apply count_occ_not_In.
Qed.

Lemma first_index_app k s t :
  In k s -> first_index k (s ++ t) = first_index k s.
Proof.
  induction s as [|x s IH]; cbn; [contradiction|].
  intros [-> | H].
  - now rewrite String.eqb_refl.
  - destruct (String.eqb x k); [reflexivity | now rewrite IH].
Qed.

Lemma first_index_lt k s : In k s -> first_index k s < List.length s.
Proof.
  induction s as [|x s IH]; cbn; [contradiction|].
  intros H. destruct (String.eqb x k) eqn:E; [lia|].
  apply String.eqb_neq in E. destruct H as [-> | H]; [congruence|].
  specialize (IH H). lia.
Qed.

Lemma first_index_fresh k s :
  ~ In k s -> first_index k (s ++ [k]) = List.length s.
Proof.
  induction s as [|x s IH]; cbn; intros H.
  - now rewrite String.eqb_refl.
  - destruct (String.eqb x k) eqn:E.
    + apply String.eqb_eq in E. subst. intuition.
    + rewrite IH; intuition.
Qed.

Lemma StronglySorted_ext_in {A : Type} (R1 R2 : A -> A -> Prop) (l : list A) :
  (forall a b, In a l -> In b l -> R1 a b -> R2 a b) ->
  StronglySorted R1 l -> StronglySorted R2 l.
Proof.
  induction l as [|x l IH]; intros Hext Hs; [constructor|].
  inversion Hs as [|? ? Hs' Hall]; subst. constructor.
  - apply IH; [|assumption]. intros a b Ha Hb. apply Hext; now right.
  - rewrite Forall_forall in *. intros y Hy.
    apply Hext; [now left | now right | auto].
Qed.

Lemma StronglySorted_snoc {A : Type} (R : A -> A -> Prop) (l : list A) (x : A) :
  StronglySorted R l -> Forall (fun y => R y x) l -> StronglySorted R (l ++ [x]).
Proof.
  induction l as [|y l IH]; cbn; intros Hs Hall.
  - repeat constructor.
  - inversion Hs as [|? ? Hs' Hy]; subst. inversion Hall; subst.
    constructor; [auto|].
    apply Forall_app. split; [assumption | now constructor].
Qed.

Lemma StronglySorted_rev {A : Type} (R : A -> A -> Prop) (l : list A) :
  StronglySorted R l -> StronglySorted (fun a b => R b a) (rev l).
Proof.
  induction l as [|x l IH]; cbn; intros Hs; [constructor|].
  inversion Hs as [|? ? Hs' Hall]; subst.
  apply StronglySorted_snoc; [auto|].
  rewrite Forall_forall in *. intros y Hy. apply Hall. now apply in_rev.
Qed.

(** The distinct values come in increasing order of first appearance. *)
Lemma first_seen_sorted s :
  StronglySorted (fun a b => first_index a s < first_index b s) (first_seen s).
Proof.
  induction s as [|x s IH] using rev_ind; [constructor|].
  rewrite first_seen_snoc. unfold uniq_add.
  assert (Hold : StronglySorted
                   (fun a b => first_index a (s ++ [x]) < first_index b (s ++ [x]))
                   (first_seen s)).
  { revert IH. apply StronglySorted_ext_in. intros a b Ha Hb.
    rewrite In_first_seen in Ha, Hb. now rewrite !first_index_app. }
  destruct (existsb (String.eqb x) (first_seen s)) eqn:E; [assumption|].
  apply existsb_eqb_not_In in E. rewrite In_first_seen in E.
  apply StronglySorted_snoc; [assumption|].
  rewrite Forall_forall. intros y Hy. rewrite In_first_seen in Hy.
  rewrite first_index_app, first_index_fresh by assumption.
  now apply first_index_lt.
Qed.

(** ** The sort *)

Lemma sort_values_descending_perm {np : Sorter} l :
  Permutation (sort_values_descending l) l.
Proof.
  unfold sort_values_descending.
  rewrite <- Permutation_rev, argsort_permutes. symmetry. apply Permutation_rev.
Qed.

(** Whatever the sorting routine, the counts come in descending order. *)
Lemma sort_values_descending_sorted {np : Sorter} l :
  StronglySorted (fun a b => snd b <= snd a) (sort_values_descending l).
Proof.
  unfold sort_values_descending.
  apply (StronglySorted_rev (fun a b => snd a <= snd b)), argsort_sorts.
Qed.

Section Stable.

Variable rank : string * nat -> nat.

Lemma insert_by_count_sorted x l :
  StronglySorted (ascending rank) l ->
  Forall (fun y => rank y < rank x) l ->
  StronglySorted (ascending rank) (insert_by_count x l).
Proof.
  induction l as [|y l IH]; cbn; intros Hs Hall.
  - repeat constructor.
  - inversion Hs as [|? ? Hs' Hy]; subst.
    inversion Hall as [|? ? Hyx Hall']; subst.
    destruct (snd x <=? snd y) eqn:E.
    + apply Nat.leb_le in E. constructor; [assumption|].
      constructor.
      * unfold ascending. lia.
      * rewrite Forall_forall in *. intros z Hz.
        specialize (Hy z Hz). specialize (Hall' z Hz).
        unfold ascending in *. lia.
    + apply Nat.leb_gt in E. constructor; [auto|].
      eapply Permutation_Forall.
      * symmetry. apply insert_by_count_perm.
      * constructor; [unfold ascending; lia | assumption].
Qed.

(** Sorting a table given in decreasing rank: ascending counts, and
    among equal counts still decreasing rank. *)
Lemma sort_by_count_sorted l :
  StronglySorted (fun a b => rank b < rank a) l ->
  StronglySorted (ascending rank) (sort_by_count l).
Proof.
  induction l as [|x l IH]; cbn; intros Hs; [constructor|].
  inversion Hs as [|? ? Hs' Hx]; subst.
  apply insert_by_count_sorted; [auto|].
  eapply Permutation_Forall; [symmetry; apply sort_by_count_perm | assumption].
Qed.

Lemma stable_descending_sorted l :
  StronglySorted (fun a b => rank a < rank b) l ->
  StronglySorted (fun a b => ascending rank b a)
                 (sort_values_descending (np := stable_sort) l).
Proof.
  intros Hs. unfold sort_values_descending. cbn [argsort stable_sort].
  apply StronglySorted_rev, sort_by_count_sorted.
  now apply StronglySorted_rev in Hs.
Qed.

End Stable.

Lemma StronglySorted_map {A B : Type} (f : A -> B) (R : B -> B -> Prop) (l : list A) :
  StronglySorted (fun a b => R (f a) (f b)) l -> StronglySorted R (map f l).
Proof.
  induction 1; cbn; constructor; auto.
  rewrite Forall_forall in *. intros y Hy.
  apply in_map_iff in Hy. destruct Hy as [z [<- Hz]]. auto.
Qed.

Lemma value_counts_perm {np : Sorter} s :
  Permutation (value_counts s)
              (map (fun k => (k, count_occ string_dec s k)) (first_seen s)).
Proof.
  unfold value_counts. rewrite sort_values_descending_perm.
  now rewrite count_values_closed.
Qed.

Lemma value_counts_keys {np : Sorter} s :
  Permutation (map fst (value_counts s)) (first_seen s).
Proof.
  rewrite (Permutation_map fst (value_counts_perm s)), map_map. cbn.
  now rewrite map_id.
Qed.

Lemma value_counts_descending {np : Sorter} s :
  StronglySorted (fun a b => snd b <= snd a) (value_counts s).
Proof. apply sort_values_descending_sorted. Qed.

(** Were the sort stable, equal counts would come in order of first
    appearance. *)
Lemma stable_value_counts_sorted s :
  StronglySorted (histogram_order s) (value_counts (np := stable_sort) s).
Proof.
  unfold value_counts.
  apply StronglySorted_ext_in
    with (R1 := fun a b => ascending (fun e => first_index (fst e) s) b a).
  - intros a b _ _. unfold ascending, histogram_order. lia.
  - apply stable_descending_sorted.
    rewrite count_values_closed.
    apply StronglySorted_map. cbn. apply first_seen_sorted.
Qed.

End ValueCountsFacts.

(* ===================================================================== *)
(** * Properties of the router *)
(* ===================================================================== *)

Module RouterFacts.

Section AnySorter.

Context {np : Sorter}.

Lemma main_unfold re host ses scr0 :
  main re host ses scr0 =
  match get_all_frameworks host ses (scr0 ++ header_widgets) with
  | (inl e, scr1) => (inl e, scr1)
  | (inr frameworks_df, scr1) =>
      match get_framework_categories host ses scr1 with
      | (inl e, scr2) => (inl e, scr2)
      | (inr categories, scr2) =>
          let page := page_label (radio_choice ses) in
          try_except (route re host page frameworks_df categories)
                     (report_error page) ses scr2
      end
  end.
Proof.
  unfold main, bind, show, st_sidebar_radio, header_widgets.
  rewrite <- !app_assoc. cbn [app]. reflexivity.
Qed.

Lemma report_error_run page e ses scr :
  report_error page e ses scr = (inr tt, scr ++ error_widgets page e).
Proof.
  unfold report_error, bind, show, error_widgets.
  rewrite <- app_assoc. reflexivity.
Qed.

(** The error boundary of [main]. *)
Lemma main_boundary re host ses scr0 D cats scr1 scr2 scr3 e :
  get_all_frameworks host ses (scr0 ++ header_widgets) = (inr D, scr1) ->
  get_framework_categories host ses scr1 = (inr cats, scr2) ->
  route re host (page_label (radio_choice ses)) D cats ses scr2 = (inl e, scr3) ->
  main re host ses scr0 =
  if is_Exception e
  then (inr tt, scr3 ++ error_widgets (page_label (radio_choice ses)) e)
  else (inl e, scr3).
Proof.
  intros H1 H2 H3. rewrite main_unfold, H1, H2. cbv zeta.
  unfold try_except. rewrite H3.
  destruct (is_Exception e); [apply report_error_run | reflexivity].
Qed.

Lemma route_home re host D cats :
  route re host (page_label Home) D cats = show_home_page re D cats.
Proof. reflexivity. Qed.

Lemma quick_search_empty re D ses scr :
  text_value ses = "" ->
  quick_search re D ses scr = (inr tt, scr ++ search_widgets).
Proof.
  intros H. unfold quick_search, bind, show, st_text_input, search_widgets.
  rewrite H. cbn. rewrite <- app_assoc. reflexivity.
Qed.

Lemma quick_search_run re D ses scr :
  text_value ses <> "" ->
  quick_search re D ses scr =
  match search re D (text_value ses) with
  | inl e => (inl e, scr ++ search_widgets)
  | inr [] =>
      (inr tt, scr ++ search_widgets
                   ++ [WarningBox "No frameworks found matching your search."])
  | inr rows => (inr tt, scr ++ search_widgets ++ [Dataframe (map table_row rows)])
  end.
Proof.
  intros H. apply String.eqb_neq in H.
  unfold quick_search, bind, show, st_text_input, search_widgets, lift.
  rewrite H. cbn [negb].
  destruct (search re D (text_value ses)) as [e|[|r rows]];
    rewrite <- ?app_assoc; reflexivity.
Qed.

(** Exceptions outside [Exception] (a [SystemExit], the rerun and stop
    signals of the framework) pass through the boundary. *)
Lemma main_passes_base_exceptions re host ses scr0 D cats scr1 scr2 scr3 e :
  get_all_frameworks host ses (scr0 ++ header_widgets) = (inr D, scr1) ->
  get_framework_categories host ses scr1 = (inr cats, scr2) ->
  route re host (page_label (radio_choice ses)) D cats ses scr2 = (inl e, scr3) ->
  is_Exception e = false ->
  main re host ses scr0 = (inl e, scr3).
Proof.
  intros H1 H2 H3 He.
  now rewrite (main_boundary re host ses scr0 D cats scr1 scr2 scr3 e H1 H2 H3), He.
Qed.

End AnySorter.

(** After a failed page, a pass with Home selected renders the home page
    to its end. *)
Example home_renders_on_failing_host :
  exists scr,
    main PyRe.engine sample_host {| radio_choice := Home; text_value := "" |} [] =
    (inr tt, scr) /\
    In (Dataframe [table_row swot]) 
       (snd (main PyRe.engine sample_host
                  {| radio_choice := Home; text_value := "strength" |} [])).
Proof.
  eexists. split; [vm_compute; reflexivity|].
  vm_compute. intuition.
Qed.


End RouterFacts.

Lemma route_page {np : Sorter} re host p D cats ses scr :
  route re host (page_label p) D cats ses scr =
  page_handler re host p D cats ses (scr ++ loading_widgets p).
Proof.
  destruct p; cbn [loading_widgets];
    [rewrite app_nil_r; reflexivity | reflexivity ..].
Qed.

Lemma search_raises_iff re D q e :
  search re D q = inl e <-> re_compile re true q = inl e.
Proof.
  rewrite search_unfold. destruct (re_compile re true q); intuition congruence.
Qed.

Lemma ascii_frame_In D r : ascii_frame D = true -> In r D -> ascii_record r = true.
Proof. unfold ascii_frame. rewrite forallb_forall. auto. Qed.

Lemma row_matches_plain beyond q p :
  (forall s, ascii_text s = true -> PyRe.pattern_search beyond p s = contains_ci q s) ->
  forall r, ascii_record r = true ->
            row_matches (PyRe.engine_over beyond) p r = field_contains q r.
Proof.
  intros H r Hr. unfold ascii_record in Hr.
  apply andb_prop in Hr. destruct Hr as [Hr Hu].
  apply andb_prop in Hr. destruct Hr as [Hn Hc].
  unfold row_matches, field_contains. cbn [re_search PyRe.engine_over].
  now rewrite (H _ Hn), (H _ Hc), (H _ Hu).
Qed.

Lemma search_plain beyond D q :
  PyRe.meta_free q = true -> ascii_text q = true -> ascii_frame D = true ->
  search (PyRe.engine_over beyond) D q = inr (filter (field_contains q) D).
Proof.
  intros Hq Ha HD. destruct (PyReFacts.compile_plain beyond q Hq Ha) as [p [Hc Hs]].
  rewrite (search_returns (PyRe.engine_over beyond) D q p Hc). f_equal.
  apply filter_ext_in. intros r Hr.
  apply (row_matches_plain beyond q p Hs). now apply (ascii_frame_In D).
Qed.


(** The scenario of the specification on the two-record dataset. *)
Example scenario_search : search PyRe.engine sample "strength" = inr [swot].
Proof. reflexivity. Qed.

(** The counts of the scenario tie; the order shown is that of a sort
    which leaves ties in place. *)
Example scenario_counts :
  category_counts (np := stable_sort) sample =
  [("Strategic Planning Frameworks", 1); ("Innovation", 1)].
Proof. reflexivity. Qed.

Example scenario_featured :
  select_featured sample ["Design Thinking"; "SWOT Analysis"] = [swot; design_thinking].
Proof. reflexivity. Qed.

(** Handed the empty query, the engine would keep every row. *)
Lemma search_empty_query_keeps_all beyond (D : DataFrame) :
  ascii_frame D = true -> search (PyRe.engine_over beyond) D "" = inr D.
Proof.
  intros HD.
  assert (Hall : forall s, contains_ci "" s = true).
  { intros s. unfold contains_ci. now destruct (chars s). }
  assert (Hid : forall l, filter (field_contains "") l = l).
  { induction l as [|r l IH]; [reflexivity|].
    cbn [filter]. unfold field_contains at 1. rewrite !Hall. cbn [orb].
    now rewrite IH. }
  rewrite (search_plain beyond D "" eq_refl eq_refl HD). now rewrite Hid.
Qed.

(* ===================================================================== *)
(** * The search *)
(* ===================================================================== *)







(** C5. Whatever the pattern engine, a result of the search is a
    subsequence of the dataset: its records are records of the dataset,
    in the dataset's order. *)
Theorem search_result_is_subsequence (re : ReEngine) (D : DataFrame) (q : string)
        (res : DataFrame) :
  search re D q = inr res ->
  Subsequence res D /\ (forall r, In r res -> In r D).
Proof.
  rewrite search_unfold. destruct (re_compile re true q) as [e|p]; [discriminate|].
  intros [= <-].
  assert (H : Subsequence (filter (row_matches re p) D) D) by apply filter_Subsequence.
  split; [exact H | exact (Subsequence_In _ _ H)].
Qed.

Lemma search_result_is_subsequence_witness :
  Subsequence [design_thinking] sample /\
  (forall r, In r [design_thinking] -> In r sample).
Proof.
  apply (search_result_is_subsequence PyRe.engine sample "design" [design_thinking]).
  reflexivity.
Defined.

(** C9. The search reads and writes nothing but its arguments: run inside
    a render pass it leaves the screen as it was, and its result is the
    same in any two sessions and screens; two passes over the same
    dataset with the same text in the search box show the same. *)
Theorem search_is_pure (re : ReEngine) (D : DataFrame) (q : string)
        (p1 p2 : Page) (scr1 scr2 : list widget) :
  let ses1 := {| radio_choice := p1; text_value := q |} in
  let ses2 := {| radio_choice := p2; text_value := q |} in
  lift (search re D q) ses1 scr1 = (search re D q, scr1) /\
  lift (search re D q) ses2 scr2 = (search re D q, scr2) /\
  exists outcome shown,
    quick_search re D ses1 scr1 = (outcome, scr1 ++ shown) /\
    quick_search re D ses2 scr2 = (outcome, scr2 ++ shown).
Proof.
  cbv zeta. split; [reflexivity|]. split; [reflexivity|].
  destruct (string_dec q "") as [-> | Hq].
  - exists (inr tt), search_widgets.
    split; now apply RouterFacts.quick_search_empty.
  - rewrite !RouterFacts.quick_search_run by assumption. cbn [text_value].
    destruct (search re D q) as [e|[|r rows]]; eauto.
Qed.

Lemma search_is_pure_witness :
  exists outcome shown,
    quick_search PyRe.engine sample {| radio_choice := Home; text_value := "design" |} []
    = (outcome, [] ++ shown) /\
    quick_search PyRe.engine sample
                 {| radio_choice := Home; text_value := "design" |} [Columns 4]
    = (outcome, [Columns 4] ++ shown).
Proof.
  apply (search_is_pure PyRe.engine sample "design" Home Home [] [Columns 4]).
Defined.

(* ===================================================================== *)
(** * The category histogram and the featured frameworks *)
(* ===================================================================== *)

(** C6, as the code has it. Whatever routine sorts the counts, the
    histogram of the category column lists each category of the dataset
    once, with the number of its records, in descending order of count
    (the order among equal counts is the one the sorting routine gives,
    and is not fixed by [value_counts]); for a given routine it is
    determined by the category column alone. *)
Theorem category_counts_descending {np : Sorter} (D : DataFrame) :
  let cats := column category D in
  let h := category_counts D in
  NoDup (map fst h) /\
  (forall c, In c (map fst h) <-> In c cats) /\
  (forall c n, In (c, n) h -> n = count_occ string_dec cats c) /\
  StronglySorted (fun a b => snd b <= snd a) h /\
  (forall D', column category D' = cats -> category_counts D' = h).
Proof.
  cbv zeta. unfold category_counts.
  set (cats := column category D).
  pose proof (ValueCountsFacts.value_counts_keys cats) as Hkeys.
  pose proof (ValueCountsFacts.value_counts_perm cats) as Hperm.
  split; [|split; [|split; [|split]]].
  - apply (Permutation_NoDup (Permutation_sym Hkeys)).
    apply ValueCountsFacts.NoDup_first_seen.
  - intros c. rewrite <- (ValueCountsFacts.In_first_seen cats c). split.
    + apply (Permutation_in _ Hkeys).
    + apply (Permutation_in _ (Permutation_sym Hkeys)).
  - intros c n H. apply (Permutation_in _ Hperm) in H.
    apply in_map_iff in H. destruct H as [k [[= -> <-] _]]. reflexivity.
  - apply ValueCountsFacts.value_counts_descending.
  - intros D' ->. reflexivity.
Qed.

Lemma category_counts_descending_witness :
  StronglySorted (fun a b => snd b <= snd a)
                 (category_counts (np := unstable_sort) tied_frame) /\
  StronglySorted (fun a b => snd b <= snd a)
                 (category_counts (np := stable_sort) tied_frame).
Proof.
  split.
  - exact (proj1 (proj2 (proj2 (proj2
             (category_counts_descending (np := unstable_sort) tied_frame))))).
  - exact (proj1 (proj2 (proj2 (proj2
             (category_counts_descending (np := stable_sort) tied_frame))))).
Defined.

(** C6 as stated fails: [value_counts] sorts with a routine that need not
    be stable. Under a sort that is not, the categories [c2] and [c3],
    both of two records, come out with [c3] first, although [c2] is met
    first in the dataset; so do [c1] and [c0]. *)
Lemma category_counts_ties_not_by_first_appearance :
  column category tied_frame = ["c0"; "c1"; "c2"; "c3"; "c2"; "c3"] /\
  category_counts (np := unstable_sort) tied_frame =
    [("c3", 2); ("c2", 2); ("c1", 1); ("c0", 1)] /\
  ~ StronglySorted (histogram_order (column category tied_frame))
                   (category_counts (np := unstable_sort) tied_frame).
Proof.
  split; [reflexivity|]. split; [reflexivity|].
  intros H. inversion H as [|a l _ Hall]; subst.
  inversion Hall as [|b l' Hfirst _]; subst.
  unfold histogram_order in Hfirst. cbn in Hfirst. lia.
Qed.

Lemma isin_select (D : DataFrame) (L : list string) :
  select_featured D L = filter (fun r => existsb (String.eqb (name r)) L) D.
Proof.
  unfold select_featured, isin, column. rewrite map_map.
  apply (select_rows_map (fun r => existsb (String.eqb (name r)) L)).
Qed.

(** C7. The featured selection is the dataset filtered by membership of
    the name in the list: exactly the records of the dataset whose name
    is listed, in dataset order whatever the order of the list, and a
    listed name that no record bears changes nothing. *)
Theorem select_featured_exact (D : DataFrame) (L : list string) :
  Subsequence (select_featured D L) D /\
  (forall r, In r (select_featured D L) <-> In r D /\ In (name r) L) /\
  (forall L', (forall n, In n L <-> In n L') -> select_featured D L' = select_featured D L) /\
  (forall L1 L2 n, L = L1 ++ n :: L2 -> ~ In n (column name D) ->
                   select_featured D L = select_featured D (L1 ++ L2)).
Proof.
  rewrite isin_select. split; [apply filter_Subsequence|].
  split; [|split].
  - intros r. rewrite filter_In, ValueCountsFacts.existsb_eqb_In. reflexivity.
  - intros L' HL. rewrite isin_select. apply filter_ext. intros r.
    apply eq_true_iff_eq. rewrite !ValueCountsFacts.existsb_eqb_In. symmetry. apply HL.
  - intros L1 L2 n -> Hn. rewrite isin_select. apply filter_ext_in. intros r Hr.
    apply eq_true_iff_eq. rewrite !ValueCountsFacts.existsb_eqb_In, !in_app_iff.
    cbn. split; [|tauto].
    intros [H | [H | H]]; auto.
    exfalso. apply Hn. unfold column. rewrite H. now apply in_map.
Qed.

Lemma select_featured_exact_witness :
  select_featured sample ["Design Thinking"; "Lean Management"; "SWOT Analysis"]
  = [swot; design_thinking] /\
  select_featured sample (["Design Thinking"] ++ "Lean Management" :: ["SWOT Analysis"])
  = select_featured sample (["Design Thinking"] ++ ["SWOT Analysis"]).
Proof.
  split; [reflexivity|].
  apply (proj2 (proj2 (proj2 (select_featured_exact sample
           ["Design Thinking"; "Lean Management"; "SWOT Analysis"])))
           ["Design Thinking"] ["SWOT Analysis"] "Lean Management").
  - reflexivity.
  - cbn. intros [H | [H | []]]; discriminate.
Defined.

(* ===================================================================== *)
(** * The router *)
(* ===================================================================== *)

(** C8. With an empty search box the home page shows the search heading
    and the input and nothing else: no table, no notice, and nothing
    that depends on the pattern engine, so the page is the same under
    any two engines. *)
Theorem empty_query_skips_search {np : Sorter} (re1 re2 : ReEngine) (D : DataFrame)
        (cats : list string) (ses : session) (scr : list widget) :
  text_value ses = "" ->
  quick_search re1 D ses scr = (inr tt, scr ++ search_widgets) /\
  show_home_page re1 D cats ses scr = show_home_page re2 D cats ses scr.
Proof.
  intros H. split; [now apply RouterFacts.quick_search_empty|].
  unfold show_home_page, bind.
  destruct (key_metrics D cats ses scr) as [[e|[]] scr1]; [reflexivity|].
  destruct (category_overview D ses scr1) as [[e|[]] scr2]; [reflexivity|].
  now rewrite !RouterFacts.quick_search_empty.
Qed.

Lemma empty_query_skips_search_witness :
  quick_search failing_engine sample {| radio_choice := Home; text_value := "" |} []
  = (inr tt, [] ++ search_widgets) /\
  show_home_page failing_engine sample sample_categories
                 {| radio_choice := Home; text_value := "" |} []
  = show_home_page PyRe.engine sample sample_categories
                   {| radio_choice := Home; text_value := "" |} [].
Proof.
  apply (empty_query_skips_search failing_engine PyRe.engine sample sample_categories
           {| radio_choice := Home; text_value := "" |} []).
  reflexivity.
Defined.

(** C3. When the handler of the selected page raises an error (an
    exception deriving from [Exception]), [main] returns normally, and
    the screen ends with an error box whose message holds the label of
    the selected page and the text of the error. *)
Theorem router_catches_page_error {np : Sorter} (re : ReEngine) (host : Host)
        (ses : session)
        (scr0 scr1 scr2 scr3 : list widget) (D : DataFrame) (cats : list string)
        (e : exc) :
  let p := radio_choice ses in
  get_all_frameworks host ses (scr0 ++ header_widgets) = (inr D, scr1) ->
  get_framework_categories host ses scr1 = (inr cats, scr2) ->
  page_handler re host p D cats ses (scr2 ++ loading_widgets p) = (inl e, scr3) ->
  is_Exception e = true ->
  main re host ses scr0 =
  (inr tt,
   scr3 ++ [ ErrorBox ("Error loading page '" ++ page_label p ++ "': " ++ exc_str e);
             Write "Please try refreshing the page or contact support if the issue persists." ]).
Proof.
  cbv zeta. intros H1 H2 H3 He.
  rewrite <- route_page in H3.
  rewrite (RouterFacts.main_boundary re host ses scr0 D cats scr1 scr2 scr3 e H1 H2 H3), He.
  reflexivity.
Qed.

Lemma router_catches_page_error_witness :
  main PyRe.engine sample_host
       {| radio_choice := FrameworkExplorer; text_value := "" |} [] =
  (inr tt,
   header_widgets ++
   [ Write "Loading Framework Explorer...";
     ErrorBox "Error loading page 'Framework Explorer': explorer data missing";
     Write "Please try refreshing the page or contact support if the issue persists." ]).
Proof.
  apply (router_catches_page_error PyRe.engine sample_host
           {| radio_choice := FrameworkExplorer; text_value := "" |}
           [] header_widgets header_widgets
           (header_widgets ++ [Write "Loading Framework Explorer..."])
           sample sample_categories
           (Exc "ValueError" true "explorer data missing"));
    reflexivity.
Defined.

(** C4. An error raised by either loader leaves [main] as it was raised,
    whatever page is selected and whatever the class of the error: the
    loads stand before the [try]. *)
Theorem load_failure_propagates {np : Sorter} (re : ReEngine) (host : Host)
        (ses : session)
        (scr0 scr' : list widget) (e : exc) :
  (get_all_frameworks host ses (scr0 ++ header_widgets) = (inl e, scr') \/
   exists D scr1,
     get_all_frameworks host ses (scr0 ++ header_widgets) = (inr D, scr1) /\
     get_framework_categories host ses scr1 = (inl e, scr')) ->
  main re host ses scr0 = (inl e, scr').
Proof.
  intros [H | [D [scr1 [H1 H2]]]]; rewrite RouterFacts.main_unfold.
  - now rewrite H.
  - now rewrite H1, H2.
Qed.

Lemma load_failure_propagates_witness :
  main PyRe.engine offline_host
       {| radio_choice := ComparativeAnalysis; text_value := "" |} [] =
  (inl (Exc "FileNotFoundError" true "frameworks.csv"), header_widgets).
Proof.
  apply (load_failure_propagates PyRe.engine offline_host
           {| radio_choice := ComparativeAnalysis; text_value := "" |} [] header_widgets
           (Exc "FileNotFoundError" true "frameworks.csv")).
  left. reflexivity.
Defined.

(** C10. An error raised while the home page renders is caught by the
    same [try] as the errors of the other pages: [main] returns normally
    and the screen ends with the error box of the router, naming the
    page "Home". *)
Theorem home_page_errors_caught {np : Sorter} (re : ReEngine) (host : Host)
        (ses : session)
        (scr0 scr1 scr2 scr3 : list widget) (D : DataFrame) (cats : list string)
        (e : exc) :
  radio_choice ses = Home ->
  get_all_frameworks host ses (scr0 ++ header_widgets) = (inr D, scr1) ->
  get_framework_categories host ses scr1 = (inr cats, scr2) ->
  show_home_page re D cats ses scr2 = (inl e, scr3) ->
  is_Exception e = true ->
  main re host ses scr0 = (inr tt, scr3 ++ error_widgets "Home" e) /\
  error_widgets "Home" e =
  [ ErrorBox ("Error loading page 'Home': " ++ exc_str e);
    Write "Please try refreshing the page or contact support if the issue persists." ].
Proof.
  intros Hp H1 H2 H3 He. split; [|reflexivity].
  rewrite <- RouterFacts.route_home with (host := host) in H3.
  rewrite <- Hp in H3.
  rewrite (RouterFacts.main_boundary re host ses scr0 D cats scr1 scr2 scr3 e H1 H2 H3), He, Hp.
  reflexivity.
Qed.

Lemma home_page_errors_caught_witness :
  exists scr3,
    main PyRe.engine sample_host {| radio_choice := Home; text_value := "[" |} [] =
    (inr tt,
     scr3 ++ [ ErrorBox "Error loading page 'Home': unterminated character set at position 0";
               Write "Please try refreshing the page or contact support if the issue persists." ]).
Proof.
  eexists.
  refine (proj1 (home_page_errors_caught PyRe.engine sample_host
           {| radio_choice := Home; text_value := "[" |}
           [] header_widgets header_widgets _
           sample sample_categories
           (Exc "re.error" true "unterminated character set at position 0")
           eq_refl eq_refl eq_refl _ eq_refl)).
  vm_compute. reflexivity.
Defined.

(* ===================================================================== *)
(** * The home page, block by block *)
(* ===================================================================== *)

Module HomeFacts.

Section AnySorter.

Context {np : Sorter}.

Lemma key_metrics_run D cats ses scr :
  key_metrics D cats ses scr = (inr tt, scr ++ metric_widgets D cats).
Proof.
  unfold key_metrics, bind, show, metric_widgets.
  rewrite <- !app_assoc. reflexivity.
Qed.

Lemma cards_run (l : list FrameworkRecord) : forall ses scr,
  for_each l (fun framework =>
    show (Expander ("📋 " ++ name framework)) ;;
    show (Write ("**Category:** " ++ category framework)) ;;
    show (Write ("**Core Function:** " ++ core_function framework)) ;;
    show (Write ("**Typical Uses:** " ++ typical_uses framework))) ses scr
  = (inr tt, scr ++ flat_map card l).
Proof.
  induction l as [|r l IH]; intros ses scr; cbn [for_each flat_map].
  - unfold ret. now rewrite app_nil_r.
  - unfold bind at 1. unfold bind at 1, show at 1. unfold bind at 1, show at 1.
    unfold bind at 1, show at 1. unfold show at 1.
    rewrite IH. unfold card. rewrite <- !app_assoc. reflexivity.
Qed.

Lemma featured_run D ses scr :
  featured D ses scr =
  (inr tt, scr ++ Subheader "⭐ Featured Frameworks"
               :: flat_map card (select_featured D featured_frameworks)).
Proof.
  unfold featured. unfold bind at 1, show at 1. cbv zeta.
  rewrite cards_run, <- app_assoc. reflexivity.
Qed.

Lemma getting_started_returns ses scr :
  exists scr', getting_started ses scr = (inr tt, scr').
Proof. unfold getting_started, bind, show. eexists. reflexivity. Qed.

(** Once the search block has returned, the page renders to its end. *)
Lemma after_search_returns D ses scr :
  exists scr', (featured D ;; getting_started) ses scr = (inr tt, scr').
Proof.
  unfold bind. rewrite featured_run. apply getting_started_returns.
Qed.

Lemma strategic_count (D : DataFrame) (v : string) :
  List.length (select_rows D (series_eq (column category D) v))
  = count_occ string_dec (column category D) v.
Proof.
  unfold series_eq, column. rewrite map_map.
  rewrite (select_rows_map (fun r => String.eqb (category r) v)).
  induction D as [|r D IH]; [reflexivity|].
  cbn [filter map count_occ].
  destruct (string_dec (category r) v) as [E | E].
  - rewrite (proj2 (String.eqb_eq _ _) E). cbn. now rewrite IH.
  - rewrite (proj2 (String.eqb_neq _ _) E). exact IH.
Qed.

Lemma list_sum_perm (l1 l2 : list nat) :
  Permutation l1 l2 -> list_sum l1 = list_sum l2.
Proof.
  induction 1 as [| x l l' _ IH | x y l | l l' l'' _ IH1 _ IH2].
  - reflexivity.
  - change (x + list_sum l = x + list_sum l'). now rewrite IH.
  - change (y + (x + list_sum l) = x + (y + list_sum l)). lia.
  - now rewrite IH1.
Qed.

Lemma count_into_sum k : forall tbl,
  list_sum (map snd (count_into tbl k)) = S (list_sum (map snd tbl)).
Proof.
  induction tbl as [|[k' n] tbl IH]; cbn [count_into]; [reflexivity|].
  destruct (String.eqb k' k); cbn [map snd].
  - change (S n + list_sum (map snd tbl) = S (n + list_sum (map snd tbl))). lia.
  - change (n + list_sum (map snd (count_into tbl k))
            = S (n + list_sum (map snd tbl))).
    rewrite IH. lia.
Qed.

Lemma count_values_sum s :
  list_sum (map snd (count_values s)) = List.length s.
Proof.
  unfold count_values.
  assert (H : forall tbl, list_sum (map snd (fold_left count_into s tbl))
                          = List.length s + list_sum (map snd tbl)).
  { induction s as [|x s IH]; intros tbl; cbn [fold_left List.length]; [reflexivity|].
    rewrite IH, count_into_sum. lia. }
  rewrite H. cbn [map list_sum fold_right]. lia.
Qed.

Lemma value_counts_sum s : list_sum (map snd (value_counts s)) = List.length s.
Proof.
  unfold value_counts.
  rewrite (list_sum_perm _ _ (Permutation_map snd
             (ValueCountsFacts.sort_values_descending_perm (count_values s)))).
  apply count_values_sum.
Qed.

Lemma value_counts_positive s : Forall (fun bar => 1 <= snd bar) (value_counts s).
Proof.
  eapply Permutation_Forall.
  - symmetry. apply ValueCountsFacts.value_counts_perm.
  - rewrite Forall_forall. intros bar H. apply in_map_iff in H.
    destruct H as [k [<- Hk]]. cbn [snd].
    apply (proj1 (ValueCountsFacts.In_first_seen s k)) in Hk.
    apply (count_occ_In string_dec) in Hk. lia.
Qed.

Lemma length_le_sum (l : list (string * nat)) :
  Forall (fun bar => 1 <= snd bar) l -> List.length l <= list_sum (map snd l).
Proof.
  induction 1 as [|bar l Hbar _ IH]; [constructor|].
  cbn [List.length map].
  change (S (List.length l) <= snd bar + list_sum (map snd l)). lia.
Qed.

Lemma category_counts_nonempty (D : DataFrame) :
  D <> [] -> category_counts D <> [].
Proof.
  intros HD E. apply HD.
  pose proof (value_counts_sum (column category D)) as Hsum.
  unfold category_counts in E. rewrite E in Hsum. cbn in Hsum.
  unfold column in Hsum. rewrite length_map in Hsum.
  destruct D; [reflexivity | discriminate].
Qed.

(** On an empty dataset the chart is not drawn: [px.bar] raises. *)
Lemma category_counts_nil : category_counts [] = [].
Proof.
  unfold category_counts, value_counts, sort_values_descending. cbn [column map].
  cbn [count_values fold_left rev].
  now rewrite (Permutation_nil (Permutation_sym (argsort_permutes []))).
Qed.

Lemma category_overview_empty ses scr :
  category_overview [] ses scr = (inl empty_chart_error, scr ++ [chart_heading]).
Proof.
  unfold category_overview. unfold bind at 1, show at 1. cbv zeta.
  rewrite category_counts_nil. reflexivity.
Qed.

Lemma category_overview_run D ses scr :
  D <> [] -> category_overview D ses scr = (inr tt, scr ++ chart_widgets D).
Proof.
  intros HD. apply category_counts_nonempty in HD.
  unfold category_overview, chart_widgets. unfold bind at 1, show at 1. cbv zeta.
  unfold bind, lift, show.
  destruct (category_counts D) as [|[c n] h]; [contradiction|].
  cbn [map fst snd px_bar]. rewrite <- app_assoc. reflexivity.
Qed.

Lemma show_home_page_empty re cats ses scr :
  show_home_page re [] cats ses scr =
  (inl empty_chart_error, scr ++ metric_widgets [] cats ++ [chart_heading]).
Proof.
  unfold show_home_page. unfold bind at 1. rewrite key_metrics_run.
  unfold bind at 1. rewrite category_overview_empty, <- app_assoc. reflexivity.
Qed.

Lemma show_home_page_unfold re D cats ses scr :
  D <> [] ->
  show_home_page re D cats ses scr =
  match quick_search re D ses (scr ++ metric_widgets D cats ++ chart_widgets D) with
  | (inl e, scr') => (inl e, scr')
  | (inr _, scr') => (featured D ;; getting_started) ses scr'
  end.
Proof.
  intros HD. unfold show_home_page. unfold bind at 1. rewrite key_metrics_run.
  unfold bind at 1. rewrite (category_overview_run D _ _ HD), <- app_assoc.
  unfold bind at 1. reflexivity.
Qed.

End AnySorter.

End HomeFacts.

(* ===================================================================== *)
(** * Further properties of the home page *)
(* ===================================================================== *)

(** X1. The key metrics block returns and shows the four metrics. The
    Strategic Frameworks figure is the number of records whose category
    is exactly "Strategic Planning Frameworks": it never exceeds the
    Total Frameworks figure, and it is the height of that category's bar
    in the chart, or zero when the chart has no such bar. *)
Theorem strategic_metric_matches_chart {np : Sorter} (D : DataFrame)
        (cats : list string)
        (ses : session) (scr : list widget) :
  exists n,
    key_metrics D cats ses scr =
    (inr tt,
     scr ++ [ Columns 4;
              Metric "Total Frameworks" (dec (List.length D));
              Metric "Categories" (dec (List.length cats));
              Metric "Strategic Frameworks" (dec n);
              Metric "Industries Covered" "10+";
              Markdown "---" ]) /\
    n = count_occ string_dec (column category D) "Strategic Planning Frameworks" /\
    n <= List.length D /\
    (In ("Strategic Planning Frameworks", n) (category_counts D) \/
     n = 0 /\ ~ In "Strategic Planning Frameworks" (map fst (category_counts D))).
Proof.
  set (v := "Strategic Planning Frameworks").
  exists (count_occ string_dec (column category D) v).
  split; [|split; [reflexivity|split]].
  - rewrite HomeFacts.key_metrics_run. unfold metric_widgets.
    rewrite (HomeFacts.strategic_count D "Strategic Planning Frameworks").
    reflexivity.
  - unfold column. rewrite <- (length_map category D). apply count_occ_bound.
  - unfold category_counts.
    pose proof (ValueCountsFacts.value_counts_perm (column category D)) as Hperm.
    pose proof (ValueCountsFacts.value_counts_keys (column category D)) as Hkeys.
    destruct (in_dec string_dec v (column category D)) as [Hin | Hout].
    + left. apply (Permutation_in _ (Permutation_sym Hperm)).
      apply in_map_iff. exists v. split; [reflexivity|].
      now apply ValueCountsFacts.In_first_seen.
    + right. split; [now apply count_occ_not_In|].
      intros H. apply Hout. apply ValueCountsFacts.In_first_seen.
      exact (Permutation_in _ Hkeys H).
Qed.

Lemma strategic_metric_matches_chart_witness :
  exists n,
    key_metrics sample sample_categories {| radio_choice := Home; text_value := "" |} [] =
    (inr tt,
     [] ++ [ Columns 4;
             Metric "Total Frameworks" (dec (List.length sample));
             Metric "Categories" (dec (List.length sample_categories));
             Metric "Strategic Frameworks" (dec n);
             Metric "Industries Covered" "10+";
             Markdown "---" ]) /\
    n = count_occ string_dec (column category sample) "Strategic Planning Frameworks" /\
    n <= List.length sample /\
    (In ("Strategic Planning Frameworks", n) (category_counts sample) \/
     n = 0 /\ ~ In "Strategic Planning Frameworks" (map fst (category_counts sample))).
Proof.
  exact (strategic_metric_matches_chart sample sample_categories
           {| radio_choice := Home; text_value := "" |} []).
Defined.

(** X2. On a dataset that is not empty the category overview draws one
    chart: its bars add up to the number of records, no bar is empty, and
    there are at least one bar and at most as many bars as records. On an
    empty dataset [px.bar] raises a [ValueError] under the heading, and
    no chart is drawn. *)
Theorem category_chart_totals {np : Sorter} (D : DataFrame) (ses : session)
        (scr : list widget) :
  match D with
  | [] => category_overview D ses scr = (inl empty_chart_error, scr ++ [chart_heading])
  | _ :: _ =>
      exists xs ys,
        category_overview D ses scr =
          (inr tt,
           scr ++ [chart_heading; BarChart "Number of Frameworks by Category" xs ys]) /\
        xs = map fst (category_counts D) /\
        ys = map snd (category_counts D) /\
        List.length xs = List.length ys /\
        list_sum ys = List.length D /\
        Forall (fun n => 1 <= n) ys /\
        1 <= List.length ys <= List.length D
  end.
Proof.
  destruct D as [|r D]; [apply HomeFacts.category_overview_empty|].
  set (D' := r :: D).
  assert (HD : D' <> []) by discriminate.
  exists (map fst (category_counts D')), (map snd (category_counts D')).
  pose proof (HomeFacts.value_counts_sum (column category D')) as Hsum.
  pose proof (HomeFacts.value_counts_positive (column category D')) as Hpos.
  unfold column in Hsum at 2. rewrite length_map in Hsum.
  fold (category_counts D') in Hsum, Hpos.
  split; [exact (HomeFacts.category_overview_run D' ses scr HD)|].
  split; [reflexivity|]. split; [reflexivity|].
  split; [now rewrite !length_map|].
  split; [exact Hsum|].
  split; [now apply Forall_map|].
  rewrite length_map. split.
  - pose proof (HomeFacts.category_counts_nonempty D' HD) as Hne.
    destruct (category_counts D'); [contradiction | cbn; lia].
  - rewrite <- Hsum. now apply HomeFacts.length_le_sum.
Qed.

Lemma category_chart_totals_witness :
  category_overview [] {| radio_choice := Home; text_value := "" |} [] =
  (inl empty_chart_error, [] ++ [chart_heading]) /\
  exists xs ys,
    category_overview (np := unstable_sort) tied_frame
                      {| radio_choice := Home; text_value := "" |} [] =
      (inr tt, [] ++ [chart_heading; BarChart "Number of Frameworks by Category" xs ys]) /\
    xs = map fst (category_counts (np := unstable_sort) tied_frame) /\
    ys = map snd (category_counts (np := unstable_sort) tied_frame) /\
    List.length xs = List.length ys /\
    list_sum ys = List.length tied_frame /\
    Forall (fun n => 1 <= n) ys /\
    1 <= List.length ys <= List.length tied_frame.
Proof.
  split.
  - exact (category_chart_totals [] {| radio_choice := Home; text_value := "" |} []).
  - exact (category_chart_totals (np := unstable_sort) tied_frame
             {| radio_choice := Home; text_value := "" |} []).
Defined.

(** X3. A non-empty query that compiles puts exactly one widget under the
    search box: the no-results notice when no record of the dataset
    matches, and otherwise a table that holds the row of every matching
    record. The notice and an empty table never appear together or
    instead of one another. *)
Theorem no_results_notice_iff (re : ReEngine) (D : DataFrame) (ses : session)
        (scr : list widget) (p : Pattern re) :
  text_value ses <> "" ->
  re_compile re true (text_value ses) = inr p ->
  exists w,
    quick_search re D ses scr = (inr tt, scr ++ search_widgets ++ [w]) /\
    (w = no_results_notice <-> forall r, In r D -> row_matches re p r = false) /\
    (forall r, In r D -> row_matches re p r = true ->
               exists rows, w = Dataframe rows /\ rows <> [] /\ In (table_row r) rows).
Proof.
  intros Hq Hc.
  rewrite (RouterFacts.quick_search_run re D ses scr Hq).
  rewrite (search_returns re D (text_value ses) p Hc).
  destruct (filter (row_matches re p) D) as [|r0 rows] eqn:E.
  - exists no_results_notice. split; [reflexivity|]. split.
    + split; [|reflexivity]. intros _ r Hr.
      destruct (row_matches re p r) eqn:Er; [|reflexivity].
      assert (H : In r (filter (row_matches re p) D)) by now apply filter_In.
      rewrite E in H. contradiction.
    + intros r Hr Er.
      assert (H : In r (filter (row_matches re p) D)) by now apply filter_In.
      rewrite E in H. contradiction.
  - exists (Dataframe (map table_row (r0 :: rows))).
    split; [reflexivity|]. split.
    + split; [discriminate|]. intros Hnone.
      assert (H : In r0 (filter (row_matches re p) D)) by (rewrite E; now left).
      apply filter_In in H. destruct H as [H0 H1].
      rewrite (Hnone r0 H0) in H1. discriminate.
    + intros r Hr Er. exists (map table_row (r0 :: rows)).
      split; [reflexivity|]. split; [discriminate|].
      apply in_map. rewrite <- E. now apply filter_In.
Qed.

Lemma no_results_notice_iff_witness :
  exists w,
    quick_search PyRe.engine sample {| radio_choice := Home; text_value := "kanban" |} []
    = (inr tt, [] ++ search_widgets ++ [w]) /\
    (w = no_results_notice <->
     forall r, In r sample ->
               row_matches PyRe.engine
                 (PyRe.Fragment failing_engine true
                    (PyRe.seq_regex (map PyRe.Chr (chars "kanban"))) None) r
               = false) /\
    (forall r, In r sample ->
               row_matches PyRe.engine
                 (PyRe.Fragment failing_engine true
                    (PyRe.seq_regex (map PyRe.Chr (chars "kanban"))) None) r
               = true ->
               exists rows, w = Dataframe rows /\ rows <> [] /\ In (table_row r) rows).
Proof.
  apply (no_results_notice_iff PyRe.engine sample
           {| radio_choice := Home; text_value := "kanban" |} []
           (PyRe.Fragment failing_engine true
                    (PyRe.seq_regex (map PyRe.Chr (chars "kanban"))) None)).
  - discriminate.
  - reflexivity.
Defined.

(** X4. The home page raises in two cases only. On an empty dataset
    [px.bar] raises its [ValueError]: the metrics and the chart heading
    are on the screen and nothing else. On a dataset that is not empty,
    it raises when the search box holds a non-empty text that does not
    compile as a pattern: the exception is the one of the compilation,
    and the page stops under the search box, before the featured
    frameworks and the guide. *)
Theorem home_page_failures {np : Sorter} (re : ReEngine) (D : DataFrame)
        (cats : list string) (ses : session) (scr scr' : list widget) (e : exc) :
  show_home_page re D cats ses scr = (inl e, scr') <->
  (D = [] /\ e = empty_chart_error /\
   scr' = scr ++ metric_widgets D cats ++ [chart_heading]) \/
  (D <> [] /\ text_value ses <> "" /\
   re_compile re true (text_value ses) = inl e /\
   scr' = scr ++ metric_widgets D cats ++ chart_widgets D ++ search_widgets).
Proof.
  destruct D as [|r0 D0].
  { rewrite HomeFacts.show_home_page_empty. split.
    - intros [= <- <-]. left. auto.
    - intros [[_ [-> ->]] | [H _]]; [reflexivity | contradiction]. }
  set (D := r0 :: D0).
  assert (HD : D <> []) by discriminate.
  rewrite (HomeFacts.show_home_page_unfold re D cats ses scr HD).
  set (scr1 := scr ++ metric_widgets D cats ++ chart_widgets D).
  assert (Hscr : scr ++ metric_widgets D cats ++ chart_widgets D ++ search_widgets
                 = scr1 ++ search_widgets).
  { unfold scr1. now rewrite <- !app_assoc. }
  rewrite Hscr.
  destruct (string_dec (text_value ses) "") as [Hq | Hq].
  - rewrite (RouterFacts.quick_search_empty re D ses scr1 Hq).
    destruct (HomeFacts.after_search_returns D ses (scr1 ++ search_widgets)) as [s H].
    rewrite H. split; [discriminate|].
    intros [[H0 _] | [_ [H0 _]]]; [discriminate | contradiction].
  - rewrite (RouterFacts.quick_search_run re D ses scr1 Hq).
    rewrite <- (search_raises_iff re D (text_value ses) e).
    destruct (search re D (text_value ses)) as [e0 | [|r rows]].
    + split.
      * intros [= -> <-]. right. auto.
      * intros [[H0 _] | [_ [_ [[= ->] ->]]]]; [discriminate | reflexivity].
    + match goal with
      | |- context [(featured D ;; getting_started) ses ?s] =>
          destruct (HomeFacts.after_search_returns D ses s) as [s' H]; rewrite H
      end.
      split; [discriminate|].
      intros [[H0 _] | [_ [_ [H0 _]]]]; discriminate.
    + match goal with
      | |- context [(featured D ;; getting_started) ses ?s] =>
          destruct (HomeFacts.after_search_returns D ses s) as [s' H]; rewrite H
      end.
      split; [discriminate|].
      intros [[H0 _] | [_ [_ [H0 _]]]]; discriminate.
Qed.

Lemma home_page_failures_witness :
  show_home_page PyRe.engine [] sample_categories
                 {| radio_choice := Home; text_value := "" |} [] =
  (inl empty_chart_error, [] ++ metric_widgets [] sample_categories ++ [chart_heading]) /\
  show_home_page PyRe.engine sample sample_categories
                 {| radio_choice := Home; text_value := "(" |} [] =
  (inl (Exc "re.error" true "missing ), unterminated subpattern at position 0"),
   [] ++ metric_widgets sample sample_categories ++ chart_widgets sample ++ search_widgets).
Proof.
  split.
  - apply (proj2 (home_page_failures PyRe.engine [] sample_categories
                    {| radio_choice := Home; text_value := "" |} []
                    ([] ++ metric_widgets [] sample_categories ++ [chart_heading])
                    empty_chart_error)).
    left. split; [reflexivity|]. split; reflexivity.
  - apply (proj2 (home_page_failures PyRe.engine sample sample_categories
                    {| radio_choice := Home; text_value := "(" |} []
                    ([] ++ metric_widgets sample sample_categories
                        ++ chart_widgets sample ++ search_widgets)
                    (Exc "re.error" true
                         "missing ), unterminated subpattern at position 0"))).
    right. split; [discriminate|]. split; [discriminate|]. split; reflexivity.
Defined.

(* ===================================================================== *)
(** * Further properties of the router *)
(* ===================================================================== *)

(** X5. With Home selected, the four page modules are not run: two hosts
    with the same loaders give the same pass, whatever their pages do. A
    page module that fails leaves the home page as it is. *)
Theorem home_ignores_page_modules {np : Sorter} (re : ReEngine) (h1 h2 : Host)
        (ses : session)
        (scr : list widget) :
  radio_choice ses = Home ->
  get_all_frameworks h1 = get_all_frameworks h2 ->
  get_framework_categories h1 = get_framework_categories h2 ->
  main re h1 ses scr = main re h2 ses scr.
Proof.
  intros Hp H1 H2. rewrite !RouterFacts.main_unfold, H1, H2, Hp.
  destruct (get_all_frameworks h2 ses (scr ++ header_widgets)) as [[e|D] scr1];
    [reflexivity|].
  destruct (get_framework_categories h2 ses scr1) as [[e|cats] scr2]; reflexivity.
Qed.

Lemma home_ignores_page_modules_witness :
  main PyRe.engine sample_host {| radio_choice := Home; text_value := "swot" |} [] =
  main PyRe.engine exiting_host {| radio_choice := Home; text_value := "swot" |} [].
Proof.
  apply (home_ignores_page_modules PyRe.engine sample_host exiting_host
           {| radio_choice := Home; text_value := "swot" |} []); reflexivity.
Defined.

(** X6. With another page selected, neither the pattern engine nor the
    loaded data reach the page: the loaders must succeed, but two passes
    that differ only in the data they return and in the engine show the
    same. *)
Theorem other_pages_ignore_data {np : Sorter} (re1 re2 : ReEngine) (h1 h2 : Host)
        (ses : session)
        (scr scr1 scr2 : list widget) (D1 D2 : DataFrame) (cats1 cats2 : list string) :
  radio_choice ses <> Home ->
  get_all_frameworks h1 ses (scr ++ header_widgets) = (inr D1, scr1) ->
  get_all_frameworks h2 ses (scr ++ header_widgets) = (inr D2, scr1) ->
  get_framework_categories h1 ses scr1 = (inr cats1, scr2) ->
  get_framework_categories h2 ses scr1 = (inr cats2, scr2) ->
  framework_explorer_page h1 = framework_explorer_page h2 ->
  comparative_analysis_page h1 = comparative_analysis_page h2 ->
  industry_recommendations_page h1 = industry_recommendations_page h2 ->
  framework_relationships_page h1 = framework_relationships_page h2 ->
  main re1 h1 ses scr = main re2 h2 ses scr.
Proof.
  intros Hp Ha1 Ha2 Hc1 Hc2 E1 E2 E3 E4.
  rewrite !RouterFacts.main_unfold, Ha1, Ha2, Hc1, Hc2. cbv zeta.
  unfold try_except. rewrite !route_page.
  destruct (radio_choice ses); [contradiction | cbn [page_handler] ..].
  - now rewrite E1.
  - now rewrite E2.
  - now rewrite E3.
  - now rewrite E4.
Qed.

Lemma other_pages_ignore_data_witness :
  main PyRe.engine sample_host
       {| radio_choice := FrameworkExplorer; text_value := "[" |} [] =
  main failing_engine other_host
       {| radio_choice := FrameworkExplorer; text_value := "[" |} [].
Proof.
  apply (other_pages_ignore_data PyRe.engine failing_engine sample_host other_host
           {| radio_choice := FrameworkExplorer; text_value := "[" |}
           [] header_widgets header_widgets
           sample [lean_management] sample_categories ["Innovation"]);
    try reflexivity.
  discriminate.
Defined.

(** X7. An exception that does not derive from [Exception], raised by
    the handler of the selected page, is not caught: it leaves [main]
    as raised and no error box is shown. *)
Theorem router_passes_base_exception {np : Sorter} (re : ReEngine) (host : Host)
        (ses : session)
        (scr0 scr1 scr2 scr3 : list widget) (D : DataFrame) (cats : list string)
        (e : exc) :
  let p := radio_choice ses in
  get_all_frameworks host ses (scr0 ++ header_widgets) = (inr D, scr1) ->
  get_framework_categories host ses scr1 = (inr cats, scr2) ->
  page_handler re host p D cats ses (scr2 ++ loading_widgets p) = (inl e, scr3) ->
  is_Exception e = false ->
  main re host ses scr0 = (inl e, scr3).
Proof.
  cbv zeta. intros H1 H2 H3 He.
  rewrite <- route_page in H3.
  rewrite RouterFacts.main_unfold, H1, H2. cbv zeta.
  unfold try_except. now rewrite H3, He.
Qed.

Lemma router_passes_base_exception_witness :
  main PyRe.engine exiting_host
       {| radio_choice := FrameworkExplorer; text_value := "" |} [] =
  (inl (Exc "SystemExit" false ""),
   header_widgets ++ [Write "Loading Framework Explorer..."]).
Proof.
  apply (router_passes_base_exception PyRe.engine exiting_host
           {| radio_choice := FrameworkExplorer; text_value := "" |}
           [] header_widgets header_widgets
           (header_widgets ++ [Write "Loading Framework Explorer..."])
           sample sample_categories (Exc "SystemExit" false ""));
    reflexivity.
Defined.

(** X8. When the handler of the selected page returns, [main] returns
    with the screen the handler left: nothing is added, and no error box
    in particular. *)
Theorem router_returns_page_screen {np : Sorter} (re : ReEngine) (host : Host)
        (ses : session)
        (scr0 scr1 scr2 scr3 : list widget) (D : DataFrame) (cats : list string) :
  let p := radio_choice ses in
  get_all_frameworks host ses (scr0 ++ header_widgets) = (inr D, scr1) ->
  get_framework_categories host ses scr1 = (inr cats, scr2) ->
  page_handler re host p D cats ses (scr2 ++ loading_widgets p) = (inr tt, scr3) ->
  main re host ses scr0 = (inr tt, scr3).
Proof.
  cbv zeta. intros H1 H2 H3.
  rewrite <- route_page in H3.
  rewrite RouterFacts.main_unfold, H1, H2. cbv zeta.
  unfold try_except. now rewrite H3.
Qed.

Lemma router_returns_page_screen_witness :
  main PyRe.engine sample_host
       {| radio_choice := ComparativeAnalysis; text_value := "" |} [] =
  (inr tt, header_widgets ++ [Write "Loading Comparative Analysis..."]).
Proof.
  apply (router_returns_page_screen PyRe.engine sample_host
           {| radio_choice := ComparativeAnalysis; text_value := "" |}
           [] header_widgets header_widgets
           (header_widgets ++ [Write "Loading Comparative Analysis..."])
           sample sample_categories);
    reflexivity.
Defined.

(* ===================================================================== *)
(** * Case folding of plain queries *)
(* ===================================================================== *)

Module PatternFacts.
Import PyRe.

Lemma prefix_ci_lower (q1 q2 : list ascii) :
  map lower q1 = map lower q2 -> forall s, prefix_ci q1 s = prefix_ci q2 s.
Proof.
  revert q2. induction q1 as [|a q1 IH]; intros [|b q2] E s; try discriminate.
  - reflexivity.
  - cbn in E. injection E as Eab Eq.
    destruct s as [|c s]; [reflexivity|].
    cbn [prefix_ci]. unfold eq_ci. rewrite Eab, (IH q2 Eq s). reflexivity.
Qed.

Lemma contains_ci_lower (q1 q2 : string) :
  lowercase q1 = lowercase q2 -> forall s, contains_ci q1 s = contains_ci q2 s.
Proof.
  intros E s. unfold contains_ci.
  assert (Em : map lower (chars q1) = map lower (chars q2)).
  { unfold lowercase in E.
    apply (f_equal list_ascii_of_string) in E.
    now rewrite !list_ascii_of_string_of_list_ascii in E. }
  induction (chars s) as [|c l IH]; cbn [occurs_ci];
    rewrite (prefix_ci_lower _ _ Em); [reflexivity | now rewrite IH].
Qed.

End PatternFacts.

(* ===================================================================== *)
(** * Further properties of the search *)
(* ===================================================================== *)

(** X10. Searching a search result again with the same query changes
    nothing, and the search of two datasets put end to end is the two
    results put end to end. *)
Theorem search_composes (re : ReEngine) (D : DataFrame) (q : string) (res : DataFrame) :
  search re D q = inr res ->
  search re res q = inr res /\
  (forall D2 res2, search re D2 q = inr res2 ->
                   search re (D ++ D2) q = inr (res ++ res2) /\
                   search re (D2 ++ D) q = inr (res2 ++ res)).
Proof.
  intros H. pose proof H as H0. rewrite search_unfold in H0.
  destruct (re_compile re true q) as [e|p] eqn:Ec; [discriminate|].
  injection H0 as <-.
  assert (Hidem : forall l, filter (row_matches re p) (filter (row_matches re p) l)
                            = filter (row_matches re p) l).
  { induction l as [|r l IH]; [reflexivity|].
    cbn [filter]. destruct (row_matches re p r) eqn:Er; [|exact IH].
    cbn [filter]. now rewrite Er, IH. }
  split.
  - rewrite (search_returns re _ q p Ec). now rewrite Hidem.
  - intros D2 res2 H2. rewrite (search_returns re D2 q p Ec) in H2.
    injection H2 as <-.
    rewrite !(search_returns re _ q p Ec), !filter_app. split; reflexivity.
Qed.

Lemma search_composes_witness :
  search PyRe.engine [swot] "s.ot" = inr [swot] /\
  (forall D2 res2, search PyRe.engine D2 "s.ot" = inr res2 ->
                   search PyRe.engine (sample ++ D2) "s.ot" = inr ([swot] ++ res2) /\
                   search PyRe.engine (D2 ++ sample) "s.ot" = inr (res2 ++ [swot])).
Proof.
  apply (search_composes PyRe.engine sample "s.ot" [swot]). reflexivity.
Defined.

(** X11. On ASCII text the case of a plain query does not matter
    ([case=False]): two ASCII queries free of special characters that
    are equal once lower-cased give the same result on every dataset
    whose searched fields are ASCII text. *)
Theorem plain_search_ignores_case (beyond : ReEngine) (D : DataFrame) (q1 q2 : string) :
  PyRe.meta_free q1 = true -> ascii_text q1 = true ->
  PyRe.meta_free q2 = true -> ascii_text q2 = true ->
  ascii_frame D = true ->
  lowercase q1 = lowercase q2 ->
  search (PyRe.engine_over beyond) D q1 = search (PyRe.engine_over beyond) D q2.
Proof.
  intros H1 A1 H2 A2 HD E.
  rewrite (search_plain beyond D q1 H1 A1 HD), (search_plain beyond D q2 H2 A2 HD).
  f_equal. apply filter_ext. intros r. unfold field_contains.
  now rewrite !(PatternFacts.contains_ci_lower q1 q2 E).
Qed.

Lemma plain_search_ignores_case_witness :
  search PyRe.engine sample "Design THINKING" = search PyRe.engine sample "design thinking".
Proof.
  apply (plain_search_ignores_case failing_engine sample
           "Design THINKING" "design thinking"); reflexivity.
Defined.

(* ===================================================================== *)
(** * Further properties of the featured frameworks *)
(* ===================================================================== *)

Lemma filter_comm {A : Type} (f g : A -> bool) (l : list A) :
  filter f (filter g l) = filter g (filter f l).
Proof.
  induction l as [|x l IH]; [reflexivity|].
  cbn [filter]. destruct (g x) eqn:Eg, (f x) eqn:Ef; cbn [filter];
    rewrite ?Eg, ?Ef, IH; reflexivity.
Qed.




(** X15. Featured selection and search are filters of the same table:
    selecting by two lists in either order gives the same records,
    selecting twice by one list is selecting once, the empty list selects
    nothing, and selecting the featured records of a search result is
    searching the featured records. *)
Theorem select_featured_composes (re : ReEngine) (D : DataFrame) (L1 L2 : list string)
        (q : string) (res : DataFrame) :
  search re D q = inr res ->
  search re (select_featured D L1) q = inr (select_featured res L1) /\
  select_featured (select_featured D L1) L2 = select_featured (select_featured D L2) L1 /\
  select_featured (select_featured D L1) L1 = select_featured D L1 /\
  select_featured D [] = [].
Proof.
  intros H. rewrite search_unfold in H.
  destruct (re_compile re true q) as [e|p] eqn:Ec; [discriminate|].
  injection H as <-. rewrite !isin_select.
  split; [|split; [|split]].
  - rewrite (search_returns re _ q p Ec). now rewrite filter_comm.
  - apply filter_comm.
  - induction D as [|r D IH]; [reflexivity|].
    cbn [filter]. destruct (existsb (String.eqb (name r)) L1) eqn:E; [|exact IH].
    cbn [filter]. now rewrite E, IH.
  - induction D as [|r D IH]; [reflexivity | exact IH].
Qed.

Lemma select_featured_composes_witness :
  search PyRe.engine (select_featured sample ["Design Thinking"]) "design"
  = inr (select_featured [design_thinking] ["Design Thinking"]).
Proof.
  apply (proj1 (select_featured_composes PyRe.engine sample
                  ["Design Thinking"] ["SWOT Analysis"] "design" [design_thinking]
                  eq_refl)).
Defined.

(** X16. Every option of the sidebar radio has its own branch in the
    router: the labels are distinct, each label runs the handler of its
    page after the loading line of that page (none for Home), and a
    string that is no label runs nothing. *)
Theorem every_option_is_routed {np : Sorter} (re : ReEngine) (host : Host)
        (D : DataFrame)
        (cats : list string) (ses : session) (scr : list widget) :
  NoDup (map page_label all_pages) /\
  (forall p, In p all_pages) /\
  (forall p,
     route re host (page_label p) D cats ses scr =
     page_handler re host p D cats ses
       (scr ++ match p with
               | Home => []
               | _ => [Write ("Loading " ++ page_label p ++ "...")]
               end)) /\
  (forall other, ~ In other (map page_label all_pages) ->
                 route re host other D cats ses scr = (inr tt, scr)).
Proof.
  split; [|split; [|split]].
  - cbn. repeat constructor; cbn; intuition discriminate.
  - intros []; cbn; tauto.
  - intros []; cbn [page_label page_handler];
      [rewrite app_nil_r; reflexivity | reflexivity ..].
  - intros other Hother. unfold route.
    repeat match goal with
    | |- context [String.eqb other ?l] =>
        destruct (String.eqb_spec other l) as [-> | _];
        [exfalso; apply Hother; cbn; tauto|]
    end.
    reflexivity.
Qed.

Lemma every_option_is_routed_witness :
  route PyRe.engine sample_host "Settings" sample sample_categories
        {| radio_choice := Home; text_value := "" |} [] = (inr tt, []).
Proof.
  apply (proj2 (proj2 (proj2 (every_option_is_routed PyRe.engine sample_host sample
                  sample_categories {| radio_choice := Home; text_value := "" |} [])))).
  cbn. intuition discriminate.
Defined.
